(** * funds_expenses_etl: normalisation and fund categorisation

    A shallow embedding of the parts of the ETL that the specification
    talks about:

    - [src/etl/extractors/master_extractor.py]  ([convert_monetary_value],
      the credit/debit rule of [_normalize_master_data]);
    - [src/etl/extractors/btg_extractor.py]     (the sign rule of
      [_normalize_btg_data]);
    - [src/etl/transformers/transformer.py]     ([_determine_fund_type],
      [_determine_fic_type], [_standardize_fund_types], [get_categoria],
      [_apply_manual_fund_type_mapping], [_categorize_funds]).

    Python values are modelled as follows.

    - A [str] is the list of its Unicode code points ([pystr]).  Literals are
      written [u "..."], which decodes the UTF-8 bytes of the literal.
    - [str.upper], [str.strip] and NFKD/ASCII folding are tabulated for the
      code points up to U+00FF (the custodian files are read as Latin-1);
      above that range [upper] leaves a code point unchanged and the ASCII
      folding drops it.
    - A cell of an object column is a [pyval]: a string, [None] or NaN.
    - A [float] is the exact rational written by its decimal literal, or an
      infinity, or NaN ([pyfloat]); binary rounding, overflow and the sign of
      zero are not modelled.
    - A DataFrame is the list of its rows in positional order; each row
      carries its index label, and [df.loc[labels, col] = v] updates every
      row whose label is listed.
    - Python's global random generator is explicit state; the generator
      itself is an interface ([RandomSource]) with CPython's Mersenne
      Twister as its instance. *)

From Stdlib Require Import List ZArith NArith QArith Qabs Bool Lia Arith.
From Stdlib Require Import Strings.String Strings.Ascii.
From Stdlib Require Import Sorting.Permutation.
Import ListNotations.

Set Implicit Arguments.

(* ===================================================================== *)
(** * Python strings                                                      *)
(* ===================================================================== *)

Module PyStr.

Local Open Scope N_scope.

(** A Python [str]: a sequence of code points. *)
Definition pystr := list N.

Definition eqb (a b : pystr) : bool :=
  if list_eq_dec N.eq_dec a b then true else false.

(** UTF-8 decoding of a literal; [acc] is the code point being assembled and
    [k] the number of continuation bytes still expected. *)
Fixpoint utf8 (bs : list N) (acc : N) (k : nat) : pystr :=
  match bs with
  | [] => []
  | b :: bs' =>
      match k with
      | O =>
          if b <? 128 then b :: utf8 bs' 0 0
          else if b <? 192 then utf8 bs' 0 0
          else if b <? 224 then utf8 bs' (b - 192) 1
          else if b <? 240 then utf8 bs' (b - 224) 2
          else utf8 bs' (b - 240) 3
      | S O => (acc * 64 + (b - 128)) :: utf8 bs' 0 0
      | S k' => utf8 bs' (acc * 64 + (b - 128)) k'
      end
  end.

Definition u (s : string) : pystr :=
  utf8 (map N_of_ascii (list_ascii_of_string s)) 0 0.

(** [sub in s] when [s] starts with [sub]. *)
Fixpoint startswith (sub s : pystr) : bool :=
  match sub, s with
  | [], _ => true
  | _ :: _, [] => false
  | a :: sub', b :: s' => (a =? b) && startswith sub' s'
  end.

(** Python's [sub in s]. *)
Fixpoint contains (sub s : pystr) : bool :=
  startswith sub s ||
  match s with
  | [] => false
  | _ :: s' => contains sub s'
  end.

(** [str.isspace] of one code point. *)
Definition isspace (c : N) : bool :=
  ((9 <=? c) && (c <=? 13)) || ((28 <=? c) && (c <=? 32)) ||
  (c =? 133) || (c =? 160) || (c =? 5760) ||
  ((8192 <=? c) && (c <=? 8202)) || (c =? 8232) || (c =? 8233) ||
  (c =? 8239) || (c =? 8287) || (c =? 12288).

Fixpoint lstrip (s : pystr) : pystr :=
  match s with
  | [] => []
  | c :: s' => if isspace c then lstrip s' else s
  end.

Definition rstrip (s : pystr) : pystr := rev (lstrip (rev s)).

(** [s.strip()]. *)
Definition strip (s : pystr) : pystr := rstrip (lstrip s).

(** [str.upper] of one code point (full case mapping, so it may give two). *)
Definition upper_char (c : N) : pystr :=
  if (97 <=? c) && (c <=? 122) then [c - 32]
  else if c =? 181 then [924]
  else if c =? 223 then [83; 83]
  else if c =? 247 then [c]
  else if c =? 255 then [376]
  else if (224 <=? c) && (c <=? 254) then [c - 32]
  else [c].

(** [s.upper()]. *)
Definition upper (s : pystr) : pystr := flat_map upper_char s.

(** [s.replace(old, new)]: leftmost, non-overlapping occurrences.  [skip]
    counts the code points of a replaced occurrence still to be dropped. *)
Fixpoint replace_from (old new s : pystr) (skip : nat) : pystr :=
  match s with
  | [] => []
  | c :: s' =>
      match skip with
      | S k => replace_from old new s' k
      | O =>
          if startswith old s
          then new ++ replace_from old new s' (List.length old - 1)
          else c :: replace_from old new s' 0
      end
  end.

Definition replace (old new s : pystr) : pystr :=
  match old with
  | [] => new ++ flat_map (fun c => c :: new) s
  | _ :: _ => replace_from old new s 0
  end.

(** [unicodedata.normalize('NFKD', c).encode('ASCII', 'ignore')] of one code
    point: the ASCII part of its compatibility decomposition. *)
Definition fold_ascii_char (c : N) : pystr :=
  if c <? 128 then [c]
  else if (c =? 160) || (c =? 168) || (c =? 175) || (c =? 180) || (c =? 184)
       then [32]
  else if c =? 170 then [97]
  else if c =? 178 then [50]
  else if c =? 179 then [51]
  else if c =? 185 then [49]
  else if c =? 186 then [111]
  else if c =? 188 then [49; 52]
  else if c =? 189 then [49; 50]
  else if c =? 190 then [51; 52]
  else if (192 <=? c) && (c <=? 197) then [65]
  else if c =? 199 then [67]
  else if (200 <=? c) && (c <=? 203) then [69]
  else if (204 <=? c) && (c <=? 207) then [73]
  else if c =? 209 then [78]
  else if (210 <=? c) && (c <=? 214) then [79]
  else if (217 <=? c) && (c <=? 220) then [85]
  else if c =? 221 then [89]
  else if (224 <=? c) && (c <=? 229) then [97]
  else if c =? 231 then [99]
  else if (232 <=? c) && (c <=? 235) then [101]
  else if (236 <=? c) && (c <=? 239) then [105]
  else if c =? 241 then [110]
  else if (242 <=? c) && (c <=? 246) then [111]
  else if (249 <=? c) && (c <=? 252) then [117]
  else if (c =? 253) || (c =? 255) then [121]
  else if c =? 376 then [89]
  else [].

Definition fold_ascii (s : pystr) : pystr := flat_map fold_ascii_char s.

End PyStr.

Import PyStr.

(** A cell of an object column: a string, [None], or NaN. *)
Inductive pyval : Type :=
| VStr (s : pystr)
| VNone
| VNaN.

Definition pyval_eq_dec (a b : pyval) : {a = b} + {a <> b}.
Proof. decide equality. apply (list_eq_dec N.eq_dec). Defined.

Definition pyval_eqb (a b : pyval) : bool :=
  if pyval_eq_dec a b then true else false.

(** [isinstance(v, str)]. *)
Definition is_str (v : pyval) : bool :=
  match v with VStr _ => true | _ => false end.

(** [str(v)]. *)
Definition str_of (v : pyval) : pystr :=
  match v with
  | VStr s => s
  | VNone => u "None"
  | VNaN => u "nan"
  end.

(** What the code raises. *)
Inductive pyerror : Type :=
| TypeError
| AttributeError.

Inductive result (A : Type) : Type :=
| Ok (a : A)
| Raise (e : pyerror).
Arguments Raise {A} e.

(* ===================================================================== *)
(** * Floats and the monetary value parser (master_extractor.py)          *)
(* ===================================================================== *)

(** A Python [float]: the exact value of a decimal literal, an infinity, or
    NaN.  [FFin] always holds a reduced fraction. *)
Inductive pyfloat : Type :=
| FFin (q : Q)
| FInf (negative : bool)
| FNaN.

(** The float written [m * 10^-e], e.g. [dec 123456 2] for [1234.56]. *)
Definition dec (m : Z) (e : nat) : Q := Qred (m # Pos.of_nat (10 ^ e)).

Definition fneg (x : pyfloat) : pyfloat :=
  match x with
  | FFin q => FFin (Qred (- q))
  | FInf b => FInf (negb b)
  | FNaN => FNaN
  end.

Definition fabs (x : pyfloat) : pyfloat :=
  match x with
  | FFin q => FFin (Qred (Qabs q))
  | FInf _ => FInf false
  | FNaN => FNaN
  end.

(** [x != 0]. *)
Definition fne0 (x : pyfloat) : bool :=
  match x with
  | FFin q => negb (Qeq_bool q 0)
  | FInf _ => true
  | FNaN => true
  end.

(** [x >= 0]. *)
Definition fge0 (x : pyfloat) : bool :=
  match x with
  | FFin q => Qle_bool 0 q
  | FInf b => negb b
  | FNaN => false
  end.

(** [Series.notna] on a float cell. *)
Definition fnotna (x : pyfloat) : bool :=
  match x with FNaN => false | _ => true end.

Module FloatParse.

Local Open Scope N_scope.

Definition is_digit (c : N) : bool := (48 <=? c) && (c <=? 57).

(** A run of digits in which single underscores may separate digits; gives
    the digits' value, their number, and the rest of the input. *)
Fixpoint digits_loop (s : pystr) (acc : N) (cnt : nat) : N * nat * pystr :=
  match s with
  | [] => (acc, cnt, [])
  | c :: s' =>
      if is_digit c then digits_loop s' (acc * 10 + (c - 48)) (S cnt)
      else if c =? 95 then
        match s' with
        | d :: s'' =>
            if is_digit d then digits_loop s'' (acc * 10 + (d - 48)) (S cnt)
            else (acc, cnt, s)
        | [] => (acc, cnt, s)
        end
      else (acc, cnt, s)
  end.

(** [digitpart]: at least one digit, starting with a digit. *)
Definition digitpart (s : pystr) : option (N * nat * pystr) :=
  match s with
  | c :: _ => if is_digit c then Some (digits_loop s 0 0) else None
  | [] => None
  end.

(** An optional sign: [true] for minus. *)
Definition sign (s : pystr) : bool * pystr :=
  match s with
  | 43 :: s' => (false, s')
  | 45 :: s' => (true, s')
  | _ => (false, s)
  end.

(** The optional exponent [e[+-]digits] closing a literal. *)
Definition exponent (s : pystr) : option Z :=
  match s with
  | [] => Some 0%Z
  | c :: s' =>
      if (c =? 101) || (c =? 69) then
        let '(neg, s1) := sign s' in
        match digitpart s1 with
        | Some (e, _, []) => Some (if neg then (- Z.of_N e)%Z else Z.of_N e)
        | _ => None
        end
      else None
  end.

Definition scale (mant : N) (fracdigits : nat) (e : Z) : Q :=
  Qred ((Z.of_N mant # Pos.of_nat (10 ^ fracdigits)) * Qpower 10 e).

(** [digits [. [digits]] [exponent]] or [. digits [exponent]]. *)
Definition unsigned (s : pystr) : option Q :=
  match digitpart s with
  | Some (i, _, r) =>
      match r with
      | 46 :: r1 =>
          match digitpart r1 with
          | Some (f, n, r2) =>
              option_map (scale (i * 10 ^ N.of_nat n + f) n) (exponent r2)
          | None => option_map (scale i 0) (exponent r1)
          end
      | _ => option_map (scale i 0) (exponent r)
      end
  | None =>
      match s with
      | 46 :: r1 =>
          match digitpart r1 with
          | Some (f, n, r2) => option_map (scale f n) (exponent r2)
          | None => None
          end
      | _ => None
      end
  end.

Definition lower_ascii (s : pystr) : pystr :=
  map (fun c => if (65 <=? c) && (c <=? 90) then c + 32 else c) s.

(** Python's [float(s)] on a string; [None] stands for [ValueError]. *)
Definition float_of_str (s : pystr) : option pyfloat :=
  let '(neg, body) := sign (strip s) in
  let word := lower_ascii body in
  if PyStr.eqb word (u "inf") || PyStr.eqb word (u "infinity")
  then Some (FInf neg)
  else if PyStr.eqb word (u "nan") then Some FNaN
  else option_map (fun q => if neg then FFin (Qred (- q)) else FFin q)
                  (unsigned body).

End FloatParse.

Module Master.

(** A line of the log. *)
Inductive log_entry : Type :=
| Warning (msg : pystr).

(** [convert_monetary_value]: the parsed amount and the warnings logged. *)
Definition convert_monetary_value (value : pyval) : pyfloat * list log_entry :=
  match value with
  | VNone | VNaN => (FFin 0, [])
  | VStr [] => (FFin 0, [])
  | VStr s =>
      let value_str := strip s in
      let is_negative :=
        contains (u "(") value_str && contains (u ")") value_str in
      let value_str := replace (u ")") (u "") (replace (u "(") (u "") value_str) in
      let value_str := replace (u ",") (u ".") (replace (u ".") (u "") value_str) in
      match FloatParse.float_of_str value_str with
      | Some value_float =>
          (if is_negative then fneg value_float else value_float, [])
      | None =>
          (FFin 0,
           [Warning (u "Não foi possível converter o valor '" ++ s
                       ++ u "' para número")])
      end
  end.

(** The columns [_normalize_master_data] computes for one row. *)
Record amount : Type := {
  valor : pyfloat;
  tipo_lancamento : pystr
}.

(** Lines 126-140 of [_normalize_master_data] on one row: both columns are
    converted, then the credit value is taken, then a non-zero debit value
    overrides it. *)
Definition normalize_master_row (credito debito : pyval)
  : amount * list log_entry :=
  let '(valor_credito, w1) := convert_monetary_value credito in
  let '(valor_debito, w2) := convert_monetary_value debito in
  let a := {| valor := FFin 0; tipo_lancamento := u "Crédito" |} in
  let mask_credito := fnotna valor_credito && fne0 valor_credito in
  let a := if mask_credito
           then {| valor := valor_credito; tipo_lancamento := tipo_lancamento a |}
           else a in
  let mask_debito := fnotna valor_debito && fne0 valor_debito in
  let a := if mask_debito
           then {| valor := fabs valor_debito; tipo_lancamento := u "Débito" |}
           else a in
  (a, w1 ++ w2).

(** Lines 121-125 of [_normalize_btg_data] on one row, after the numeric
    conversion of the column. *)
Definition normalize_btg_row (v : pyfloat) : amount :=
  {| valor := fabs v;
     tipo_lancamento := if fge0 v then u "Crédito" else u "Débito" |}.

End Master.

(* ===================================================================== *)
(** * Fund types (transformer.py)                                         *)
(* ===================================================================== *)

(** Rows of the frame [ExpenseTransformer] works on.  [idx] is the index
    label of the row. *)
Record row : Type := {
  idx : Z;
  nome_fundo : pyval;
  lancamento : pyval;
  valor : pyfloat;
  tipo_lancamento : pyval;
  categoria : pyval;
  TpFundo : pyval;
  nmcategorizado : pyval
}.

Definition frame := list row.

Definition set_TpFundo (v : pyval) (r : row) : row :=
  {| idx := idx r; nome_fundo := nome_fundo r; lancamento := lancamento r;
     valor := valor r; tipo_lancamento := tipo_lancamento r;
     categoria := categoria r; TpFundo := v;
     nmcategorizado := nmcategorizado r |}.

Definition set_nmcategorizado (v : pyval) (r : row) : row :=
  {| idx := idx r; nome_fundo := nome_fundo r; lancamento := lancamento r;
     valor := valor r; tipo_lancamento := tipo_lancamento r;
     categoria := categoria r; TpFundo := TpFundo r;
     nmcategorizado := v |}.

Definition set_categoria (v : pyval) (r : row) : row :=
  {| idx := idx r; nome_fundo := nome_fundo r; lancamento := lancamento r;
     valor := valor r; tipo_lancamento := tipo_lancamento r;
     categoria := v; TpFundo := TpFundo r;
     nmcategorizado := nmcategorizado r |}.

(** [df.loc[labels, col] = v], with [f] the update of the column: every row
    whose label is listed is updated. *)
Definition loc_set (labels : list Z) (f : row -> row) (df : frame) : frame :=
  map (fun r => if existsb (Z.eqb (idx r)) labels then f r else r) df.

(** A dict literal read in insertion order. *)
Definition dict (V : Type) := list (pystr * V).

(** [d.get(k)]. *)
Fixpoint dict_get (V : Type) (d : dict V) (k : pystr) : option V :=
  match d with
  | [] => None
  | (k', v) :: d' => if PyStr.eqb k' k then Some v else dict_get d' k
  end.

Module FundType.

Definition suffixes_to_ignore : list pystr :=
  [ u "RL"; u "- RL"; u "RESP LIMITADA"; u "RESPONSABILIDAD LIMITADA";
    u "RESPONSABILIDADE LIMTADA"; u "RESPONSABILIDADE LIMITADA";
    u "NP"; u "- NP"; u "SUBORDINADA"; u "- SUBORDINADA" ].

Definition patterns : dict (list pystr) :=
  [ (u "FIDC",
      [ u "FIDC";
        u "FUNDO DE INVESTIMENTO EM DIREITOS CREDITÓRIOS";
        u "FUNDO DE INVESTIMENTO EM DIREITOS";
        u "FUNDO DE INVEST. EM DIREITOS";
        u "FUNDO DE INVESTIMENTO EM DC";
        u "EM DIREITOS C" ]);
    (u "FICFIDC",
      [ u "FICFIDC";
        u "FIC FIDC";
        u "FUNDO DE INVESTIMENTO EM COTAS DE FUNDOS DE INVESTIMENTO EM DIREITOS" ]);
    (u "FIC FIM",
      [ u "FIC FIM";
        u "FC FIM";
        u "FIC DE FIM";
        u "FUNDO DE INVESTIMENTO EM COTAS DE FUNDO MULTIMERCADO" ]);
    (u "FICFIM", [ u "FICFIM"; u "FIC FIM" ]);
    (u "FICFIM CP", [ u "FICFIM CP"; u "FIC FIM CP"; u "FIC DE FIM CP" ]);
    (u "FIM",
      [ u "FIM"; u "FUNDO DE INVESTIMENTO MULTIMERCADO"; u "MULTIMERCADO" ]);
    (u "FIC", [ u "FIC"; u "FC"; u "FUNDO DE INVESTIMENTO EM COTAS" ]);
    (u "FIM CP", [ u "FIM CP" ]);
    (u "FIA", [ u "FIA"; u "FUNDO DE INVESTIMENTO EM AÇÕES" ]);
    (u "FICFIA",
      [ u "FICFIA";
        u "FIC FIA";
        u "FUNDO DE INVESTIMENTO EM COTAS DE FUNDO DE AÇÕES" ]) ].

(** The loop removing the suffixes that do not affect the classification. *)
Definition remove_suffixes (fund_name : pystr) : pystr :=
  fold_left
    (fun clean_name suffix =>
       if contains suffix clean_name
       then strip (replace suffix (u "") clean_name)
       else clean_name)
    suffixes_to_ignore fund_name.

(** The nested loop over [patterns.items()]: the first type, in table order,
    one of whose patterns occurs in the name. *)
Fixpoint first_match (table : dict (list pystr)) (clean_name : pystr)
  : option pystr :=
  match table with
  | [] => None
  | (fund_type, type_patterns) :: table' =>
      if existsb (fun pattern => contains pattern clean_name) type_patterns
      then Some fund_type
      else first_match table' clean_name
  end.

Definition _determine_fund_type (fund_name : pyval) : pystr :=
  match fund_name with
  | VNone | VNaN | VStr [] => u "Outro"
  | VStr name =>
      let fund_name := strip (upper name) in
      let clean_name := remove_suffixes fund_name in
      match first_match patterns clean_name with
      | Some fund_type => fund_type
      | None =>
          if contains (u " EM DC") clean_name
             || contains (u "EM DIREITOS") clean_name
          then u "FIDC"
          else if contains (u "FIDC") clean_name then u "FIDC"
          else if contains (u "FIC FIM CP") clean_name then u "FICFIM CP"
          else if contains (u "FIC FIM") clean_name then u "FICFIM"
          else if contains (u "FIC") clean_name && contains (u "FIM") clean_name
          then u "FICFIM"
          else if contains (u "FIM CP") clean_name then u "FIM CP"
          else if contains (u "FIM") clean_name then u "FIM"
          else if contains (u "FIC") clean_name then u "FIC"
          else u "Outro"
      end
  end.

(** The second of the two identical declarations; it is the one in force. *)
Definition _determine_fic_type (fic_name : pyval) : pystr :=
  match fic_name with
  | VNone | VNaN | VStr [] => u "Outro"
  | VStr name =>
      let fic_name := strip (upper name) in
      if contains (u "FIC FIM CP") fic_name then u "FICFIM CP"
      else if contains (u "FIC FIM") fic_name then u "FICFIM"
      else if contains (u "FIC FIA") fic_name then u "FICFIA"
      else if contains (u "FIC") fic_name then u "FIC"
      else if contains (u "FIM CP") fic_name then u "FIM CP"
      else if contains (u "FIM") fic_name then u "FIM"
      else if contains (u "FIA") fic_name then u "FIA"
      else u "Outro"
  end.

Definition type_mapping : dict pystr :=
  [ (u "FIC FIM", u "FICFIM");
    (u "FIC II", u "FIC");
    (u "FIM CP", u "FIM CP");
    (u "FICFIM CP", u "FICFIM CP");
    (u "FIDC", u "FIDC");
    (u "FICFIDC", u "FICFIDC");
    (u "FIP", u "FIP");
    (u "FIM", u "FIM");
    (u "FIA", u "FIA");
    (u "FICFIA", u "FICFIA");
    (u "FICFIM", u "FICFIM");
    (u "FIC", u "FIC") ].

(** [lambda x: type_mapping.get(x, x)]. *)
Definition standardize (x : pyval) : pyval :=
  match x with
  | VStr s =>
      match dict_get type_mapping s with
      | Some t => VStr t
      | None => x
      end
  | _ => x
  end.

Definition _standardize_fund_types (df : frame) : frame :=
  map (fun r => set_TpFundo (standardize (TpFundo r)) r) df.

Definition manual_mapping : dict pystr :=
  [ (u "ALBAREDO FIDC", u "FIDC");
    (u "Z INVEST FIDC", u "FIDC");
    (u "SC FUNDO DE INVESTIMENTO EM DC", u "FIDC");
    (u "PRIME AGRO FIDC", u "FIDC");
    (u "GRUPO PRIME AGRO FIC", u "FICFIM");
    (u "GLOBAL FUTURA FIDC", u "FIDC");
    (u "BASÃ", u "FIDC");
    (u "BLUE ROCKET FIDC", u "FIDC");
    (u "VISHNU FUNDO", u "FIDC");
    (u "AF6 FIDC", u "FIDC");
    (u "BELL FUNDO", u "FIDC");
    (u "VERGINIA FUNDO", u "FIDC");
    (u "BONTEMPO FIDC", u "FIDC");
    (u "PINPAG FIDC", u "FIDC");
    (u "BELLIN FIC", u "FICFIM");
    (u "NINE CAPITAL FIDC", u "FIDC");
    (u "NINE CAPITAL FIC", u "FIC");
    (u "MASTRENN FIDC", u "FIDC");
    (u "MASTRENN FIC", u "FICFIM CP");
    (u "UKF FIDC", u "FIDC");
    (u "UKF FIC", u "FIC");
    (u "NR11 FUNDO", u "FIDC");
    (u "SMT AGRO HOLDING", u "FICFIM");
    (u "SMT AGRO FUNDO", u "FIDC");
    (u "TERTON FUNDO", u "FIDC");
    (u "ZAB LEGACY FIDC", u "FIDC");
    (u "SCI SAO CR FC FIM CP", u "FICFIM CP");
    (u "ARTANIS FUNDO DE INVESTIMENTO MULTIMERCA", u "FIM");
    (u "GOLIATH FUNDO DE INVESTIMENTO MULTIMERCA", u "FIM");
    (u "AGROCETE FUNDO DE INVESTIMENTO EM DIREIT", u "FIDC");
    (u "CREDILOG II - FUNDO DE INVESTIMENTO EM D", u "FIDC");
    (u "CREDILOG - FUNDO DE INVESTIMENTO EM DIRE", u "FIDC");
    (u "PINPAG  FIDC - RL", u "FIDC");
    (u "CAPITALIZA FUNDO DE INVESTIMENTO EM DIRE", u "FIDC");
    (u "FUTURO CAPITAL FUNDO DE INVESTIMENTO EM", u "FIDC");
    (u "VELSO - FUNDO DE INVESTIMENTO EM DIREITO", u "FIDC");
    (u "ANVERES FUNDO DE INVESTIMENTO EM DIREITO", u "FIDC") ].

(** The inner loop over [manual_mapping.items()]: the type of the first key
    that occurs in the name. *)
Fixpoint manual_lookup (table : dict pystr) (fund_name : pystr)
  : option pystr :=
  match table with
  | [] => None
  | (key, fund_type) :: table' =>
      if contains key fund_name then Some fund_type
      else manual_lookup table' fund_name
  end.

(** [df['TpFundo'] == 'Outro'] on one row. *)
Definition is_outro (r : row) : bool :=
  pyval_eqb (TpFundo r) (VStr (u "Outro")).

(** The body of the loop over [df[outros_mask].iterrows()]: [pending] holds
    the rows selected before the loop started, [df] is the frame being
    updated.  [row['nome_fundo'].upper()] raises on a name that is no
    string. *)
Fixpoint manual_loop (pending : list row) (df : frame) : result frame :=
  match pending with
  | [] => Ok df
  | r :: pending' =>
      match nome_fundo r with
      | VStr name =>
          match manual_lookup manual_mapping (upper name) with
          | Some fund_type =>
              manual_loop pending'
                (loc_set [idx r] (set_TpFundo (VStr fund_type)) df)
          | None => manual_loop pending' df
          end
      | _ => Raise AttributeError
      end
  end.

Definition _apply_manual_fund_type_mapping (df : frame) : result frame :=
  manual_loop (filter is_outro df) df.

End FundType.

Import FundType.

(* ===================================================================== *)
(** * Expense categories (transformer.py, [_categorize_expenses])         *)
(* ===================================================================== *)

Module Categoria.

Definition categoria_map : dict (list pystr) :=
  [ (u "Taxa",
      [ u "Taxa"; u "Tarifa"; u "TAXA"; u "TARIFA"; u "TX."; u "TXCUSULTORIA";
        u "CUSTO SELIC" ]);
    (u "Custo", [ u "Custo"; u "CUSTO"; u "CUSTO_EMISNC"; u "COST" ]);
    (u "Pagamento", [ u "Pagamento"; u "PAGAMENTO"; u "Pagto"; u "PGTO" ]);
    (u "Transferência",
      [ u "Transferência"; u "TRANSFERÊNCIA"; u "DOC/TED"; u "TED"; u "DOC";
        u "TRANSF" ]);
    (u "Operação",
      [ u "Operação"; u "OPERAÇÃO"; u "Compra"; u "Venda"; u "COMPRA";
        u "VENDA"; u "Aquisição"; u "AQUISIÇÃO"; u "PURCHASE" ]);
    (u "Resgate", [ u "Resgate"; u "RESGATE"; u "REDEMPTION" ]);
    (u "Aplicação", [ u "Aplicação"; u "APLICAÇÃO"; u "Aplic." ]);
    (u "Auditoria", [ u "Auditoria"; u "AUDITORIA"; u "#AUDIT"; u "AUDIT" ]);
    (u "Custódia", [ u "Custódia"; u "CUSTODIA"; u "CUSTODY" ]);
    (u "Gestão", [ u "Gestão"; u "GESTÃO" ]);
    (u "Liquidação", [ u "Liquidação"; u "LIQUIDAÇÃO"; u "LIQUIDACAO" ]);
    (u "Outros", []) ].

(** The nested loop over [categoria_map.items()]: the first category, in
    table order, one of whose keywords, uppercased, occurs in the text. *)
Fixpoint table_lookup (table : dict (list pystr)) (lancamento : pystr)
  : option pystr :=
  match table with
  | [] => None
  | (categoria, keywords) :: table' =>
      if existsb (fun keyword => contains (upper keyword) lancamento) keywords
      then Some categoria
      else table_lookup table' lancamento
  end.

Definition get_categoria (lancamento : pyval) : pystr :=
  match lancamento with
  | VStr text =>
      let lancamento := upper text in
      match table_lookup categoria_map lancamento with
      | Some categoria => categoria
      | None =>
          if contains (u "LÍQUIDO NO DIA") lancamento
             || contains (u "LIQUIDO NO DIA") lancamento
          then u "Balanço Diário"
          else u "Outros"
      end
  | _ => u "Outros"
  end.

Definition _categorize_expenses (df : frame) : frame :=
  map (fun r => set_categoria (VStr (get_categoria (lancamento r))) r) df.

End Categoria.

Import Categoria.

(* ===================================================================== *)
(** * The random source ([random.seed], [random.shuffle])                 *)
(* ===================================================================== *)

(** Python's process-wide generator.  [seed a] is the state [random.seed(a)]
    leaves behind, whatever the state was; [randbelow g n] is
    [Random._randbelow(n)] from state [g]. *)
Class RandomSource : Type := {
  rng_state : Type;
  seed : Z -> rng_state;
  randbelow : rng_state -> nat -> nat * rng_state
}.

Section Shuffle.

Context {RS : RandomSource}.
Variable A : Type.

(** [x[i] = v] on a list. *)
Fixpoint set_nth (i : nat) (v : A) (x : list A) : list A :=
  match x, i with
  | [], _ => []
  | _ :: x', O => v :: x'
  | a :: x', S i' => a :: set_nth i' v x'
  end.

(** [x[i], x[j] = x[j], x[i]]; both positions exist wherever [shuffle] uses
    it (Python would raise [IndexError] otherwise). *)
Definition swap (i j : nat) (x : list A) : list A :=
  match nth_error x i, nth_error x j with
  | Some a, Some b => set_nth j a (set_nth i b x)
  | _, _ => x
  end.

(** [for i in reversed(range(1, n + 1)): j = randbelow(i + 1); swap]. *)
Fixpoint shuffle_from (i : nat) (g : rng_state) (x : list A)
  : list A * rng_state :=
  match i with
  | O => (x, g)
  | S i' =>
      let '(j, g') := randbelow g (S i) in
      shuffle_from i' g' (swap i j x)
  end.

(** [random.shuffle(x)]. *)
Definition shuffle (g : rng_state) (x : list A) : list A * rng_state :=
  shuffle_from (List.length x - 1) g x.

End Shuffle.

(** CPython's generator: MT19937, seeded through [init_by_array], with
    [_randbelow_with_getrandbits] on top.  Words are 32-bit. *)
Module MT19937.

Local Open Scope N_scope.

Definition u32 (x : N) : N := N.land x 0xffffffff.

Record state : Type := {
  mt : list N;
  index : nat
}.

Definition word (i : nat) (mt : list N) : N := nth i mt 0.

Fixpoint init_from (n : nat) (mti prev : N) : list N :=
  match n with
  | O => []
  | S n' =>
      let v := u32 (1812433253 * N.lxor prev (N.shiftr prev 30) + mti) in
      v :: init_from n' (mti + 1) v
  end.

Definition init_genrand (s : N) : list N :=
  u32 s :: init_from 623 1 (u32 s).

(** First loop of [init_by_array]. *)
Fixpoint mix_key (k i j : nat) (key mt : list N) : list N * nat :=
  match k with
  | O => (mt, i)
  | S k' =>
      let prev := word (i - 1) mt in
      let v := u32 (N.lxor (word i mt)
                           (u32 (N.lxor prev (N.shiftr prev 30) * 1664525))
                    + word j key + N.of_nat j) in
      let mt := set_nth i v mt in
      let i := S i in
      let j := S j in
      let '(mt, i) :=
        if (624 <=? i)%nat then (set_nth 0 (word 623 mt) mt, 1%nat)
        else (mt, i) in
      let j := if (List.length key <=? j)%nat then 0%nat else j in
      mix_key k' i j key mt
  end.

(** Second loop of [init_by_array]. *)
Fixpoint mix_index (k i : nat) (mt : list N) : list N :=
  match k with
  | O => mt
  | S k' =>
      let prev := word (i - 1) mt in
      let v := u32 (N.lxor (word i mt)
                           (u32 (N.lxor prev (N.shiftr prev 30) * 1566083941))
                    + 0x100000000 - N.of_nat i) in
      let mt := set_nth i v mt in
      let i := S i in
      let '(mt, i) :=
        if (624 <=? i)%nat then (set_nth 0 (word 623 mt) mt, 1%nat)
        else (mt, i) in
      mix_index k' i mt
  end.

Definition init_by_array (key : list N) : state :=
  let mt := init_genrand 19650218 in
  let '(mt, i) := mix_key (Nat.max 624 (List.length key)) 1 0 key mt in
  let mt := mix_index 623 i mt in
  {| mt := set_nth 0 0x80000000 mt; index := 624 |}.

(** The 32-bit chunks of a seed, least significant first. *)
Fixpoint chunks (fuel : nat) (n : N) : list N :=
  match fuel with
  | O => []
  | S fuel' =>
      u32 n :: (if N.shiftr n 32 =? 0 then []
                else chunks fuel' (N.shiftr n 32))
  end.

(** [random.seed(a)] for an integer [a]. *)
Definition seed_int (a : Z) : state :=
  let n := Z.abs_N a in
  init_by_array (chunks (S (N.to_nat (N.size n))) n).

(** Regeneration of the 624 words. *)
Fixpoint twist (n kk : nat) (mt : list N) : list N :=
  match n with
  | O => mt
  | S n' =>
      let y := N.lor (N.land (word kk mt) 0x80000000)
                     (N.land (word ((kk + 1) mod 624) mt) 0x7fffffff) in
      let v := N.lxor (N.lxor (word ((kk + 397) mod 624) mt) (N.shiftr y 1))
                      (if N.odd y then 0x9908b0df else 0) in
      twist n' (S kk) (set_nth kk v mt)
  end.

Definition genrand_uint32 (s : state) : N * state :=
  let s := if (624 <=? index s)%nat
           then {| mt := twist 624 0 (mt s); index := 0 |}
           else s in
  let y := word (index s) (mt s) in
  let y := N.lxor y (N.shiftr y 11) in
  let y := N.lxor y (N.land (u32 (N.shiftl y 7)) 0x9d2c5680) in
  let y := N.lxor y (N.land (u32 (N.shiftl y 15)) 0xefc60000) in
  let y := N.lxor y (N.shiftr y 18) in
  (y, {| mt := mt s; index := S (index s) |}).

(** [getrandbits(k)] for [k <= 32], which covers lists of fewer than [2^32]
    elements. *)
Definition getrandbits (k : N) (s : state) : N * state :=
  let '(y, s') := genrand_uint32 s in
  (N.shiftr y (32 - k), s').

(** The rejection loop of [_randbelow_with_getrandbits].  CPython draws
    until a value below [n] comes out; the model gives up after [fuel] more
    draws and answers 0. *)
Fixpoint randbelow_loop (fuel : nat) (n k : N) (s : state) : N * state :=
  let '(r, s') := getrandbits k s in
  if r <? n then (r, s')
  else
    match fuel with
    | O => (0, s')
    | S fuel' => randbelow_loop fuel' n k s'
    end.

Definition tries : nat := 256.

Definition randbelow_mt (s : state) (n : nat) : nat * state :=
  let '(r, s') := randbelow_loop tries (N.of_nat n) (N.size (N.of_nat n)) s in
  (N.to_nat r, s').

End MT19937.

#[export] Instance mersenne : RandomSource := {|
  rng_state := MT19937.state;
  seed := MT19937.seed_int;
  randbelow := MT19937.randbelow_mt
|}.

(* ===================================================================== *)
(** * Parent / sub-fund redistribution ([_categorize_funds])              *)
(* ===================================================================== *)

Module Redistribution.

Local Open Scope nat_scope.

(** The local [normalize_string]. *)
Definition normalize_string (s : pyval) : pystr :=
  match s with
  | VStr t => fold_ascii (upper (strip t))
  | _ => str_of s
  end.

(** The predicate behind [fidc_mask]. *)
Definition fidc_match (fidc_name : pystr) (x : pyval) : bool :=
  contains (normalize_string (VStr fidc_name)) (normalize_string x)
  || contains (normalize_string x) (normalize_string (VStr fidc_name)).

(** [df[fidc_mask]]. *)
Definition fidc_rows (fidc_name : pystr) (df : frame) : frame :=
  filter (fun r => fidc_match fidc_name (nome_fundo r)) df.

(** [x[start:stop]] for [0 <= start] and [0 <= stop]. *)
Definition slice (A : Type) (x : list A) (start stop : nat) : list A :=
  firstn (stop - start) (skipn start x).

(** What the loop does for one FIC once its rows are chosen. *)
Definition assign (fic : pystr) (fic_indices : list Z) (df : frame) : frame :=
  let df := loc_set fic_indices (set_nmcategorizado (VStr fic)) df in
  let fic_type := _determine_fic_type (VStr fic) in
  loc_set fic_indices (set_TpFundo (VStr fic_type)) df.

(** [for i, fic in enumerate(fics_list)], from position [i] on. *)
Fixpoint distribute (fics : list pystr) (i rows_per_fic : nat)
    (distribute_indices : list Z) (df : frame) : frame :=
  match fics with
  | [] => df
  | fic :: fics' =>
      let start_idx := i * rows_per_fic in
      let end_idx :=
        Nat.min ((i + 1) * rows_per_fic) (List.length distribute_indices) in
      if List.length distribute_indices <=? start_idx then df
      else
        match slice distribute_indices start_idx end_idx with
        | [] => distribute fics' (S i) rows_per_fic distribute_indices df
        | fic_indices =>
            distribute fics' (S i) rows_per_fic distribute_indices
              (assign fic fic_indices df)
        end
  end.

(** [pandas.unique]: first occurrences, in order. *)
Fixpoint unique (l : list pyval) : list pyval :=
  match l with
  | [] => []
  | v :: l' => v :: filter (fun w => negb (pyval_eqb v w)) (unique l')
  end.

Section Engine.

Context {RS : RandomSource}.

(** The numbers and the shuffled labels one FIDC entry works with, once the
    entry is known to be processed. *)
Record partition : Type := {
  keep_indices : list Z;
  distribute_indices : list Z;
  rows_per_fic : nat
}.

(** Lines 284-312: the counts, then [random.seed(42)] and the shuffle.
    [int(total_rows * 0.5)] is [total_rows / 2] (the product is exact below
    [2^53] rows). *)
Definition split_rows (fidc_labels : list Z) (num_fics : nat)
  : partition * rng_state :=
  let total_rows := List.length fidc_labels in
  let keep_original_count := Nat.max (total_rows / 2) 1 in
  let rows_to_distribute := total_rows - keep_original_count in
  let rows_per_fic := Nat.max 1 (rows_to_distribute / num_fics) in
  let '(fidc_indices, g) := shuffle (seed 42) fidc_labels in
  ({| keep_indices := firstn keep_original_count fidc_indices;
      distribute_indices := skipn keep_original_count fidc_indices;
      rows_per_fic := rows_per_fic |}, g).

(** Whether the body of the loop gets past its three [continue]s. *)
Definition processed (fics_list : list pystr) (total_rows : nat) : bool :=
  match fics_list with
  | [] => false
  | first :: _ =>
      negb (PyStr.eqb first (u "-"))
      && negb (total_rows =? 0)
      && negb (total_rows - Nat.max (total_rows / 2) 1 =? 0)
  end.

(** One iteration of [for fidc_name, fics_list in fidc_to_fics.items()]. *)
Definition process_fidc (st : frame * rng_state) (entry : pystr * list pystr)
  : frame * rng_state :=
  let '(df, g) := st in
  let '(fidc_name, fics_list) := entry in
  let rows := fidc_rows fidc_name df in
  if processed fics_list (List.length rows) then
    let '(p, g') := split_rows (map idx rows) (List.length fics_list) in
    (distribute fics_list 0 (rows_per_fic p) (distribute_indices p) df, g')
  else st.

(** [_categorize_funds].  The opening log line joins the first five distinct
    fund names and raises [TypeError] when one of them is no string. *)
Definition _categorize_funds (g : rng_state) (fidc_to_fics : dict (list pystr))
    (df : frame) : result frame * rng_state :=
  if forallb is_str (firstn 5 (unique (map nome_fundo df))) then
    let df := map (fun r => set_nmcategorizado (nome_fundo r) r) df in
    let '(df, g') := fold_left process_fidc fidc_to_fics (df, g) in
    (Ok df, g')
  else (Raise TypeError, g).

(** The steps of [transform] that write the columns [TpFundo] and
    [nmcategorizado], in their order: automatic type, redistribution, manual
    mapping, standardisation. *)
Definition transform_fund_columns (g : rng_state)
    (fidc_to_fics : dict (list pystr)) (df : frame) : result frame * rng_state :=
  let df :=
    map (fun r => set_TpFundo (VStr (_determine_fund_type (nome_fundo r))) r) df in
  match _categorize_funds g fidc_to_fics df with
  | (Ok df, g') =>
      match _apply_manual_fund_type_mapping df with
      | Ok df => (Ok (_standardize_fund_types df), g')
      | Raise e => (Raise e, g')
      end
  | (Raise e, g') => (Raise e, g')
  end.

End Engine.

End Redistribution.

Import Redistribution.

(* ===================================================================== *)
(** * Observations used in the statements                                 *)
(* ===================================================================== *)

(** The pairs [(fic, fic_indices)] for which the loop of [distribute] runs
    its two assignments, in order. *)
Fixpoint assignments (fics : list pystr) (i rows_per_fic : nat)
    (distribute_indices : list Z) : list (pystr * list Z) :=
  match fics with
  | [] => []
  | fic :: fics' =>
      let start_idx := (i * rows_per_fic)%nat in
      let end_idx :=
        Nat.min ((i + 1) * rows_per_fic) (List.length distribute_indices) in
      if (List.length distribute_indices <=? start_idx)%nat then []
      else
        match slice distribute_indices start_idx end_idx with
        | [] => assignments fics' (S i) rows_per_fic distribute_indices
        | fic_indices =>
            (fic, fic_indices)
              :: assignments fics' (S i) rows_per_fic distribute_indices
        end
  end.

(** A row once it is handed to [fic]. *)
Definition assigned_row (fic : pystr) (r : row) : row :=
  set_TpFundo (VStr (_determine_fic_type (VStr fic)))
    (set_nmcategorizado (VStr fic) r).

(** How one FIDC entry divides the labels of its rows: those that stay with
    the FIDC and, per FIC, those handed over. *)
Record outcome : Type := {
  stay : list Z;
  handed : list (pystr * list Z)
}.

Definition handed_labels (o : outcome) : list Z :=
  List.concat (map snd (handed o)).

Definition handed_count (o : outcome) : nat :=
  list_sum (map (fun a => List.length (snd a)) (handed o)).

Section Outcome.

Context {RS : RandomSource}.

(** The division [process_fidc] makes of the rows of [fidc_name]: with an
    entry that is skipped every row stays; otherwise the rows kept, the rows
    given to each FIC, and the rows the integer division leaves over. *)
Definition outcome_of (df : frame) (fidc_name : pystr) (fics_list : list pystr)
  : outcome :=
  let labels := map idx (fidc_rows fidc_name df) in
  if processed fics_list (List.length labels) then
    let p := fst (split_rows labels (List.length fics_list)) in
    {| stay := keep_indices p
               ++ skipn (List.length fics_list * rows_per_fic p)
                    (distribute_indices p);
       handed := assignments fics_list 0 (rows_per_fic p) (distribute_indices p) |}
  else {| stay := labels; handed := [] |}.

(** What conservation says of the frame [df'] that [process_fidc] returns
    for one entry: the labels of the selected rows are divided, without
    repetition, into those that stay and those handed to a FIC; the two
    counts add up to the number of selected rows; the frame keeps its length;
    a row that is not handed over is unchanged; and a row handed to a FIC
    carries that FIC's name and type. *)
Definition conserved (df : frame) (fidc_name : pystr)
    (fics_list : list pystr) (df' : frame) : Prop :=
  let o := outcome_of df fidc_name fics_list in
  Permutation (map idx (fidc_rows fidc_name df)) (stay o ++ handed_labels o)
  /\ (List.length (stay o) + handed_count o
      = List.length (fidc_rows fidc_name df))%nat
  /\ List.length df' = List.length df
  /\ (forall pos r,
        nth_error df pos = Some r -> ~ In (idx r) (handed_labels o) ->
        nth_error df' pos = Some r)
  /\ (forall pos r fic ls,
        nth_error df pos = Some r -> In (fic, ls) (handed o) ->
        In (idx r) ls ->
        nth_error df' pos = Some (assigned_row fic r)).

End Outcome.

(** The plan [handed] carried out on a frame. *)
Definition apply_handed (pl : list (pystr * list Z)) (df : frame) : frame :=
  fold_left (fun d a => assign (fst a) (snd a) d) pl df.

(** Rows whose categorised name is still their own fund name. *)
Definition own_name (r : row) : bool :=
  pyval_eqb (nmcategorizado r) (nome_fundo r).

(** [ceil(0.5 * n)]. *)
Definition half_up (n : nat) : nat := (n + 1) / 2.

(** The rows of a returned frame that the FIDC selects and that still carry
    their own fund name: the rows retained under the parent. *)
Definition retained_rows (fidc_name : pystr) (df' : frame) : frame :=
  filter (fun r => fidc_match fidc_name (nome_fundo r) && own_name r) df'.

(** The rows of a returned frame that the FIDC selects and whose categorised
    name is one of its FICs: the rows assigned to the children. *)
Definition assigned_rows (fidc_name : pystr) (fics_list : list pystr)
    (df' : frame) : frame :=
  filter (fun r =>
            fidc_match fidc_name (nome_fundo r)
            && existsb (fun fic => pyval_eqb (nmcategorizado r) (VStr fic))
                 fics_list)
    df'.

(** No fund name of the frame is selected by two entries of the mapping. *)
Fixpoint parents_disjoint (fidc_to_fics : dict (list pystr))
    (names : list pyval) : bool :=
  match fidc_to_fics with
  | [] => true
  | (fidc_name, _) :: rest =>
      forallb (fun x =>
                 negb (fidc_match fidc_name x)
                 || forallb (fun e => negb (fidc_match (fst e) x)) rest)
        names
      && parents_disjoint rest names
  end.

(** What conservation says of the frame [df'] that the whole of
    [_categorize_funds] returns, for one entry of the mapping: the labels of
    the rows the entry selects are divided, without repetition, into those
    that stay and those handed to a FIC; the two counts add up to the number
    of selected rows; the frame keeps its length; a row that stays carries
    its own fund name as categorised name and its type is untouched; a row
    handed to a FIC carries that FIC's name and type. *)
Definition conserved_over_run {RS : RandomSource} (df : frame)
    (fidc_name : pystr) (fics_list : list pystr) (df' : frame) : Prop :=
  let o := outcome_of df fidc_name fics_list in
  Permutation (map idx (fidc_rows fidc_name df)) (stay o ++ handed_labels o)
  /\ NoDup (stay o ++ handed_labels o)
  /\ (List.length (stay o) + handed_count o
      = List.length (fidc_rows fidc_name df))%nat
  /\ List.length df' = List.length df
  /\ (forall pos r,
        nth_error df pos = Some r -> In (idx r) (stay o) ->
        nth_error df' pos = Some (set_nmcategorizado (nome_fundo r) r))
  /\ (forall pos r fic ls,
        nth_error df pos = Some r -> In (fic, ls) (handed o) ->
        In (idx r) ls ->
        nth_error df' pos = Some (assigned_row fic r)).

(** A fresh row of a frame: only label and fund name are filled in. *)
Definition mk_row (i : Z) (name : string) : row :=
  {| idx := i; nome_fundo := VStr (u name); lancamento := VNone;
     valor := FFin 0; tipo_lancamento := VNone; categoria := VNone;
     TpFundo := VNone; nmcategorizado := VNone |}.

(** A row as [transform_fund_columns] leaves it. *)
Definition typed_row (i : Z) (name tp cat : string) : row :=
  {| idx := i; nome_fundo := VStr (u name); lancamento := VNone;
     valor := FFin 0; tipo_lancamento := VNone; categoria := VNone;
     TpFundo := VStr (u tp); nmcategorizado := VStr (u cat) |}.



(** Three rows of one FIDC that has a single FIC. *)
Definition alfa_mapping : dict (list pystr) :=
  [ (u "ALFA FIDC", [ u "ALFA FIC" ]) ].

Definition alfa_rows : frame :=
  [ typed_row 0 "ALFA FIDC" "FIDC" "ALFA FIDC";
    typed_row 1 "ALFA FIDC" "FIDC" "ALFA FIDC";
    typed_row 2 "ALFA FIDC" "FIDC" "ALFA FIDC" ].

Definition alfa_rows_after : frame :=
  [ typed_row 0 "ALFA FIDC" "FIC" "ALFA FIC";
    typed_row 1 "ALFA FIDC" "FIDC" "ALFA FIDC";
    typed_row 2 "ALFA FIDC" "FIC" "ALFA FIC" ].

(** Five rows of one FIDC with two FICs, and a row of another fund. *)
Definition beta_fics : list pystr := [ u "BETA FIC FIM"; u "GAMA FIC" ].

Definition beta_rows : frame :=
  [ typed_row 10 "BETA FIDC" "FIDC" "BETA FIDC";
    typed_row 11 "BETA FIDC" "FIDC" "BETA FIDC";
    typed_row 12 "OMEGA FIA" "FIA" "OMEGA FIA";
    typed_row 13 "BETA FIDC - RL" "FIDC" "BETA FIDC - RL";
    typed_row 14 "BETA FIDC" "FIDC" "BETA FIDC";
    typed_row 15 "BETA FIDC" "FIDC" "BETA FIDC" ].

(** The same rows under two entries that select disjoint rows: "OMEGA"
    selects row 12 only. *)
Definition beta_mapping : dict (list pystr) :=
  [ (u "BETA FIDC", beta_fics); (u "OMEGA", [ u "OMEGA FIC" ]) ].

Definition beta_rows_after : frame :=
  [ typed_row 10 "BETA FIDC" "FIDC" "BETA FIDC";
    typed_row 11 "BETA FIDC" "FIDC" "BETA FIDC";
    typed_row 12 "OMEGA FIA" "FIA" "OMEGA FIA";
    typed_row 13 "BETA FIDC - RL" "FICFIM" "BETA FIC FIM";
    typed_row 14 "BETA FIDC" "FIDC" "BETA FIDC";
    typed_row 15 "BETA FIDC" "FIC" "GAMA FIC" ].

(** Two rows of one fund under two entries that both select them: the name
    "ALFA FIDC" contains the parent "ALFA". *)
Definition overlap_mapping : dict (list pystr) :=
  [ (u "ALFA FIDC", [ u "ALFA FIC" ]); (u "ALFA", [ u "ALFA II FIC" ]) ].

Definition overlap_rows : frame :=
  [ typed_row 0 "ALFA FIDC" "FIDC" "ALFA FIDC";
    typed_row 1 "ALFA FIDC" "FIDC" "ALFA FIDC" ].

(** After [random.seed(42)] the shuffle orders the labels as 1, 0: each of
    the two entries keeps row 1 and hands row 0 to its FIC, the second
    overwriting the first. *)
Definition overlap_rows_after : frame :=
  [ typed_row 0 "ALFA FIDC" "FIC" "ALFA II FIC";
    typed_row 1 "ALFA FIDC" "FIDC" "ALFA FIDC" ].

(** Two rows for the manual mapping: a FIDC whose name contains a key of the
    mapping, and a row the automatic classifier left as "Outro". *)
Definition manual_rows : frame :=
  [ typed_row 0 "ALBAREDO FIDC" "FIDC" "ALBAREDO FIDC";
    typed_row 1 "VISHNU FUNDO X" "Outro" "VISHNU FUNDO X" ].

Definition manual_rows_after : frame :=
  [ typed_row 0 "ALBAREDO FIDC" "FIDC" "ALBAREDO FIDC";
    typed_row 1 "VISHNU FUNDO X" "FIDC" "VISHNU FUNDO X" ].

(* ===================================================================== *)
(** * More of the code                                                    *)
(* ===================================================================== *)

(** [str.lower] and [str.title], tabulated like [upper] for the code points
    up to U+00FF. *)
Module PyCase.

Local Open Scope N_scope.

Definition lower_char (c : N) : N :=
  if (65 <=? c) && (c <=? 90) then c + 32
  else if (192 <=? c) && (c <=? 222) && negb (c =? 215) then c + 32
  else c.

(** [s.lower()]. *)
Definition lower (s : pystr) : pystr := map lower_char s.

(** Whether a code point is cased (a letter with case). *)
Definition cased (c : N) : bool :=
  ((65 <=? c) && (c <=? 90)) || ((97 <=? c) && (c <=? 122))
  || (c =? 170) || (c =? 181) || (c =? 186)
  || ((192 <=? c) && (c <=? 214)) || ((216 <=? c) && (c <=? 246))
  || ((248 <=? c) && (c <=? 255)).

Definition title_char (c : N) : pystr :=
  if c =? 223 then [83; 115] else upper_char c.

(** [s.title()]: a code point that follows a cased one is lowercased, any
    other is titlecased. *)
Fixpoint title_from (previous_is_cased : bool) (s : pystr) : pystr :=
  match s with
  | [] => []
  | c :: s' =>
      (if previous_is_cased then [lower_char c] else title_char c)
        ++ title_from (cased c) s'
  end.

Definition title (s : pystr) : pystr := title_from false s.

End PyCase.

Import PyCase.

(** [d[k] = v] on a dict: an existing key keeps its place. *)
Fixpoint dict_set (V : Type) (d : dict V) (k : pystr) (v : V) : dict V :=
  match d with
  | [] => [(k, v)]
  | (k', v') :: d' =>
      if PyStr.eqb k' k then (k', v) :: d' else (k', v') :: dict_set d' k v
  end.

(** [x < 0] on a float. *)
Definition flt0 (x : pyfloat) : bool :=
  match x with
  | FFin q => negb (Qle_bool 0 q)
  | FInf negative => negative
  | FNaN => false
  end.

(** The credit/debit rule of the Daycoval and Singulare extractors, on one
    row, after the numeric conversion of the two columns. *)
Module CreditDebit.




End CreditDebit.

(** Which extractor handles which custodian: [detect_custodiante]
    (file_utils.py), the [if]/[elif] chain of main.py and the
    [ExtractorFactory] (extractors/__init__.py). *)
Module Extractors.

Inductive extractor : Type :=
| BTGExtractor
| DaycovalExtractor
| MasterExtractor
| SingulareExtractor.

Definition detect_custodiante (filename : pystr) : option pystr :=
  let filename_lower := lower filename in
  if contains (u "cashstatement") filename_lower then Some (u "Singulare")
  else if contains (u "ptr_") filename_lower then Some (u "Master")
  else if contains (u "demonstrativo de caixa") filename_lower
  then Some (u "Daycoval")
  else if contains (u "caixaextrato") filename_lower then Some (u "BTG")
  else None.

(** The chain in [process_file] and [process_directory]; [None] is the
    branch "Custodiante não suportado". *)
Definition select_extractor (custodiante : pystr) : option extractor :=
  if PyStr.eqb custodiante (u "BTG") then Some BTGExtractor
  else if PyStr.eqb custodiante (u "Daycoval") then Some DaycovalExtractor
  else if PyStr.eqb custodiante (u "Master") then Some MasterExtractor
  else if PyStr.eqb custodiante (u "Singulare") then Some SingulareExtractor
  else None.

Definition extractor_map : dict extractor :=
  [ (u "BTG", BTGExtractor);
    (u "Daycoval", DaycovalExtractor);
    (u "Master", MasterExtractor);
    (u "Singulare", SingulareExtractor) ].

(** [ExtractorFactory.get_extractor]. *)
Definition get_extractor (custodiante : pystr) : option extractor :=
  let custodiante := title (strip custodiante) in
  dict_get extractor_map custodiante.

End Extractors.

(** The rest of [ExpenseTransformer] and [DataFrameNormalizer]. *)
Module Lancamentos.

(** The inner loop of [normalize_lancamento]: the value of the first key, in
    map order, that occurs in the text, both lowercased. *)
Fixpoint first_key_in (lancamentos_map : dict pystr) (lancamento : pystr)
  : option pystr :=
  match lancamentos_map with
  | [] => None
  | (key, value) :: rest =>
      if contains (lower key) (lower lancamento) then Some value
      else first_key_in rest lancamento
  end.

(** [normalize_lancamento], with the map of [map_lancamentos] as argument. *)
Definition normalize_lancamento (lancamentos_map : dict pystr)
    (lancamento : pyval) : pyval :=
  match lancamento with
  | VStr text =>
      let lancamento := strip text in
      match dict_get lancamentos_map lancamento with
      | Some value => VStr value
      | None =>
          match first_key_in lancamentos_map lancamento with
          | Some value => VStr value
          | None => VStr lancamento
          end
      end
  | _ => lancamento
  end.

(** The list [get_despesas_classifications] falls back to when the
    configuration cannot be read. *)
Definition default_despesas : list pystr :=
  [ u "Grafeno"; u "Taxa de Administração"; u "Anbima"; u "Taxa Anbima";
    u "Taxa de Gestão"; u "Taxa de Custódia"; u "Despesas"; u "Auditoria";
    u "Custódia"; u "Tarifa Bancária" ].

(** [is_despesa], with the configured list as argument. *)
Definition is_despesa (despesas_list : list pystr) (lancamento : pyval)
  : bool :=
  let despesas_list_upper := map upper despesas_list in
  match lancamento with
  | VStr text =>
      if existsb (PyStr.eqb (upper text)) despesas_list_upper then true
      else existsb (fun desp => contains desp (upper text)) despesas_list_upper
  | _ => false
  end.

(** The characters [re.sub(r'[^a-z0-9_]', '', col)] keeps. *)
Definition column_char (c : N) : bool :=
  (((97 <=? c) && (c <=? 122)) || ((48 <=? c) && (c <=? 57)) || (c =? 95))%N.

(** What [normalize_columns] makes of one column name. *)
Definition normalize_column (col : pystr) : pystr :=
  let col := lower (strip col) in
  let col := replace (u " ") (u "_") col in
  filter column_char col.

End Lancamentos.

(** [ConfigLoader.get_categorized_fund_name] (config_loader.py), with the
    two loaded mappings as arguments. *)
Module Config.

(** [{normalize_string(k): v for k, v in d.items()}]. *)
Definition normalize_keys (V : Type) (d : dict V) : dict V :=
  fold_left (fun acc kv => dict_set acc (normalize_string (VStr (fst kv))) (snd kv))
    d [].

(** [for fic, fidc in d.items(): if fic in norm_name: return fidc]. *)
Fixpoint first_contained (V : Type) (d : dict V) (norm_name : pystr)
  : option V :=
  match d with
  | [] => None
  | (k, v) :: d' =>
      if contains k norm_name then Some v else first_contained d' norm_name
  end.

Definition get_categorized_fund_name (fidc_to_fics : dict (list pystr))
    (fic_to_fidc : dict pystr) (fund_name : pyval) : pyval :=
  match fund_name with
  | VNone | VNaN | VStr [] => fund_name
  | VStr _ =>
      let norm_name := normalize_string fund_name in
      let normalized_fic_to_fidc := normalize_keys fic_to_fidc in
      let normalized_fidc_to_fics := normalize_keys fidc_to_fics in
      match dict_get normalized_fic_to_fidc norm_name with
      | Some fidc => VStr fidc
      | None =>
          match first_contained normalized_fic_to_fidc norm_name with
          | Some fidc => VStr fidc
          | None =>
              match dict_get normalized_fidc_to_fics norm_name with
              | Some _ => fund_name
              | None =>
                  match first_contained normalized_fidc_to_fics norm_name with
                  | Some _ => fund_name
                  | None => fund_name
                  end
              end
          end
      end
  end.

End Config.

(** [convert_fic_fidc_csv_to_json] (csv_to_json.py) on the rows of the CSV
    file, each with its FIDC cell and its cells "FIC 1", "FIC 2", "FIC 3"
    as strings (a missing cell or column is the empty string, as after
    [fillna('')]). *)
Module CsvToJson.

Record csv_row : Type := {
  FIDC : pystr;
  FICs : list pystr
}.

Record mapping : Type := {
  fidc_to_fics : dict (list pystr);
  fic_to_fidc : dict pystr
}.

(** The normalisation of the text columns before the loop. *)
Definition normalize_cell (cell : pystr) : pystr := upper (strip cell).

(** The loop over the three FIC columns of one row. *)
Fixpoint collect_fics (cells : list pystr) (fidc : pystr) (fics : list pystr)
    (fic_to_fidc : dict pystr) : list pystr * dict pystr :=
  match cells with
  | [] => (fics, fic_to_fidc)
  | cell :: cells' =>
      match cell, strip cell with
      | _ :: _, _ :: _ =>
          let fic := upper (strip cell) in
          collect_fics cells' fidc (fics ++ [fic]) (dict_set fic_to_fidc fic fidc)
      | _, _ => collect_fics cells' fidc fics fic_to_fidc
      end
  end.

(** The body of [for _, row in df.iterrows()]. *)
Definition add_row (m : mapping) (row : csv_row) : mapping :=
  let fidc := normalize_cell (FIDC row) in
  match fidc, strip fidc with
  | _ :: _, _ :: _ =>
      let fidc := upper (strip fidc) in
      let '(fics, fic_to_fidc) :=
        collect_fics (map normalize_cell (FICs row)) fidc [] (fic_to_fidc m) in
      match fics with
      | [] => {| fidc_to_fics := fidc_to_fics m; fic_to_fidc := fic_to_fidc |}
      | _ :: _ =>
          {| fidc_to_fics := dict_set (fidc_to_fics m) fidc fics;
             fic_to_fidc := fic_to_fidc |}
      end
  | _, _ => m
  end.

Definition convert (rows : list csv_row) : mapping :=
  fold_left add_row rows {| fidc_to_fics := []; fic_to_fidc := [] |}.

End CsvToJson.

(** The labels [_determine_fund_type] can answer. *)
Definition automatic_labels : list pystr :=
  [ u "FIDC"; u "FICFIDC"; u "FIC FIM"; u "FICFIM"; u "FIM"; u "FIC"; u "FIA";
    u "Outro" ].

(** The labels [_determine_fic_type] can answer. *)
Definition fic_labels : list pystr :=
  [ u "FICFIM CP"; u "FICFIM"; u "FICFIA"; u "FIC"; u "FIM CP"; u "FIM";
    u "FIA"; u "Outro" ].

(** The labels a row can carry once [transform] has typed it. *)
Definition final_labels : list pystr :=
  [ u "FIDC"; u "FICFIDC"; u "FICFIM"; u "FICFIM CP"; u "FIM"; u "FIM CP";
    u "FIC"; u "FIA"; u "FICFIA"; u "Outro" ].

(* ===================================================================== *)
(** * Strings: occurrence lemmas                                          *)
(* ===================================================================== *)

Lemma startswith_app (p q s : pystr) :
  startswith (p ++ q) s = true -> startswith p s = true.
Proof.
  revert s; induction p as [|a p IH]; intros s H; [now destruct s|].
  destruct s as [|b s]; simpl in *; [discriminate|].
  apply andb_true_iff in H as [Hab H].
  rewrite Hab; simpl; now apply IH.
Qed.

Lemma contains_app (p q s : pystr) :
  contains (p ++ q) s = true -> contains p s = true.
Proof.
  induction s as [|b s IH]; simpl; intros H.
  - apply orb_true_iff in H as [H|H]; [|discriminate].
    apply startswith_app in H; now rewrite H.
  - apply orb_true_iff in H as [H|H].
    + apply startswith_app in H; now rewrite H.
    + rewrite (IH H); apply orb_true_r.
Qed.

(* ===================================================================== *)
(** * Monetary values                                                     *)
(* ===================================================================== *)

(** C7.  The monetary parser reads "(1.234,56)" as -1234.56 (parentheses
    negate, the dot separates thousands, the comma is the decimal mark),
    "1234,56" as 1234.56 and the empty string as 0.0; on "abc" it returns 0.0
    and logs one warning instead of raising. *)
Theorem convert_monetary_value_examples :
  Master.convert_monetary_value (VStr (u "(1.234,56)"))
    = (FFin (dec (-123456) 2), [])
  /\ Master.convert_monetary_value (VStr (u "1234,56"))
    = (FFin (dec 123456 2), [])
  /\ Master.convert_monetary_value (VStr (u "")) = (FFin 0, [])
  /\ Master.convert_monetary_value (VStr (u "abc"))
    = (FFin 0,
       [Master.Warning (u "Não foi possível converter o valor 'abc' para número")]).
Proof. split; [|split; [|split]]; vm_compute; reflexivity. Qed.

(** X21.  Whatever the cell holds, a value the parser cannot read costs one
    warning and yields 0.0; nothing is raised. *)
Lemma convert_monetary_value_recovers (value : pyval) :
  snd (Master.convert_monetary_value value) = []
  \/ (fst (Master.convert_monetary_value value) = FFin 0
      /\ List.length (snd (Master.convert_monetary_value value)) = 1%nat).
Proof.
  unfold Master.convert_monetary_value.
  destruct value as [[|c s]| |]; try (left; reflexivity).
  match goal with |- context [FloatParse.float_of_str ?x] =>
    destruct (FloatParse.float_of_str x) end;
    [left | right; split]; reflexivity.
Qed.

(** C4 (failing input).  A Master row whose credit column holds the
    parenthesised value "(100,00)" and whose debit column is empty gets the
    amount -100.0 with kind "Crédito": the amount is negative. *)
Theorem master_negative_credit_amount :
  Master.normalize_master_row (VStr (u "(100,00)")) (VStr (u ""))
  = ({| Master.valor := FFin (dec (-100) 0);
        Master.tipo_lancamento := u "Crédito" |}, []).
Proof. vm_compute; reflexivity. Qed.

(** X22.  The debit branch of the Master rule: a debit that is a non-zero number
    wins whatever the credit is, and its amount is the absolute value. *)
Lemma master_debit_wins (credito debito : pyval) :
  let d := fst (Master.convert_monetary_value debito) in
  fnotna d && fne0 d = true ->
  fst (Master.normalize_master_row credito debito)
  = {| Master.valor := fabs d; Master.tipo_lancamento := u "Débito" |}.
Proof.
  intros d H. unfold Master.normalize_master_row.
  destruct (Master.convert_monetary_value credito) as [c w1].
  subst d. destruct (Master.convert_monetary_value debito) as [d w2].
  cbn [fst] in *. now rewrite H.
Qed.

(** X23.  The BTG rule takes the absolute value of every amount: the result is
    never a negative number. *)
Lemma btg_amount_not_negative (v : pyfloat) :
  match Master.valor (Master.normalize_btg_row v) with
  | FFin q => (0 <= q)%Q
  | FInf negative => negative = false
  | FNaN => v = FNaN
  end.
Proof.
  destruct v as [q|b|]; cbn [Master.normalize_btg_row Master.valor fabs]; auto.
  rewrite Qred_correct. apply Qabs_nonneg.
Qed.

(* ===================================================================== *)
(** * Fund types                                                          *)
(* ===================================================================== *)

(** C5 (failing input).  On "SCI SAO CR FC FIM CP" the automatic classifier
    answers "FIC FIM" (the pattern "FC FIM" of the third table entry), the
    manual mapping is not consulted because the type is not "Outro", and the
    standardisation turns the label into "FICFIM": the row ends as FICFIM,
    not as "FICFIM CP". *)
Theorem sci_sao_classified_ficfim :
  _determine_fund_type (VStr (u "SCI SAO CR FC FIM CP")) = u "FIC FIM"
  /\ fst (transform_fund_columns (seed 0) [] [mk_row 0 "SCI SAO CR FC FIM CP"])
     = Ok [typed_row 0 "SCI SAO CR FC FIM CP" "FICFIM" "SCI SAO CR FC FIM CP"].
Proof. split; vm_compute; reflexivity. Qed.

(** A name matched by the specific pattern "FIC FIM CP" and by the general
    "FIC FIM" gets the general type, while the resolver for FIC names gives
    the specific one. *)
Lemma specific_pattern_loses :
  _determine_fund_type (VStr (u "AROEIRA FIC FIM CP")) = u "FIC FIM"
  /\ _determine_fic_type (VStr (u "AROEIRA FIC FIM CP")) = u "FICFIM CP".
Proof. split; vm_compute; reflexivity. Qed.

(** One step of the loop over the table. *)
Lemma first_match_cons
    (t : pystr) (pats : list pystr) (table : dict (list pystr))
    (clean_name : pystr) (res : option pystr) :
  first_match ((t, pats) :: table) clean_name = res ->
  (existsb (fun pattern => contains pattern clean_name) pats = true
   /\ res = Some t)
  \/ (existsb (fun pattern => contains pattern clean_name) pats = false
      /\ first_match table clean_name = res).
Proof.
  cbn [first_match].
  destruct (existsb (fun pattern => contains pattern clean_name) pats);
    intros <-; auto.
Qed.

(** The table entry "FICFIM CP" can never be the first match: each of its
    patterns extends a pattern of an earlier entry. *)
Lemma first_match_never_ficfim_cp (clean_name : pystr) :
  first_match patterns clean_name <> Some (u "FICFIM CP").
Proof.
  unfold patterns. intros H.
  apply first_match_cons in H as [[_ H]|[_ H]];
    [vm_compute in H; discriminate|].
  apply first_match_cons in H as [[_ H]|[_ H]];
    [vm_compute in H; discriminate|].
  apply first_match_cons in H as [[_ H]|[E3 H]];
    [vm_compute in H; discriminate|].
  apply first_match_cons in H as [[_ H]|[E4 H]];
    [vm_compute in H; discriminate|].
  apply first_match_cons in H as [[E5 _]|[_ H]].
  - cbn [existsb] in E3, E4, E5.
    repeat match goal with
    | E : _ || _ = false |- _ => apply orb_false_iff in E as [? ?]
    end.
    repeat match goal with
    | E : _ || _ = true |- _ => apply orb_true_iff in E as [E|E]
    end; try discriminate.
    + apply (contains_app (u "FICFIM") (u " CP")) in E5; congruence.
    + apply (contains_app (u "FIC FIM") (u " CP")) in E5; congruence.
    + apply (contains_app (u "FIC DE FIM") (u " CP")) in E5; congruence.
  - repeat (apply first_match_cons in H as [[_ H]|[_ H]];
              [vm_compute in H; discriminate|]).
    discriminate.
Qed.

(** Neither does the fallback chain give it: the automatic classifier never
    answers "FICFIM CP". *)
Lemma determine_fund_type_never_ficfim_cp (fund_name : pyval) :
  _determine_fund_type fund_name <> u "FICFIM CP".
Proof.
  unfold _determine_fund_type.
  destruct fund_name as [[|c s]| |]; cbv beta iota.
  1, 3, 4: intros H; vm_compute in H; discriminate.
  set (clean_name := remove_suffixes (strip (upper (c :: s)))).
  destruct (first_match patterns clean_name) as [t|] eqn:E.
  - intros ->. now apply (first_match_never_ficfim_cp clean_name).
  - unfold patterns in E.
    do 2 (apply first_match_cons in E as [[_ E]|[_ E]]; [discriminate|]).
    apply first_match_cons in E as [[_ E]|[E3 _]]; [discriminate|].
    cbn [existsb] in E3. apply orb_false_iff in E3 as [E3 _].
    destruct (contains (u " EM DC") clean_name || contains (u "EM DIREITOS") clean_name);
      [vm_compute; discriminate|].
    destruct (contains (u "FIDC") clean_name); [vm_compute; discriminate|].
    destruct (contains (u "FIC FIM CP") clean_name) eqn:E5.
    + apply (contains_app (u "FIC FIM") (u " CP")) in E5; congruence.
    + repeat match goal with
      | |- (if ?b then _ else _) <> _ => destruct b
      end; vm_compute; discriminate.
Qed.

Lemma dict_get_In (V : Type) (d : dict V) (k : pystr) (v : V) :
  dict_get d k = Some v -> In (k, v) d.
Proof.
  induction d as [|[k' v'] d IH]; cbn [dict_get]; [discriminate|].
  unfold PyStr.eqb. destruct (list_eq_dec N.eq_dec k' k) as [->|_].
  - intros [= ->]. now left.
  - intros H. right. now apply IH.
Qed.

(** Every label the standardisation can produce is mapped to itself. *)
Lemma type_mapping_values_fixed :
  Forall (fun kv => dict_get type_mapping (snd kv) = Some (snd kv)) type_mapping.
Proof.
  unfold type_mapping.
  repeat (apply Forall_cons; [vm_compute; reflexivity|]).
  apply Forall_nil.
Qed.

Lemma standardize_fixed (s t : pystr) :
  dict_get type_mapping s = Some t -> standardize (VStr t) = VStr t.
Proof.
  intros H. apply dict_get_In in H.
  pose proof type_mapping_values_fixed as F.
  rewrite Forall_forall in F. specialize (F _ H). cbn [snd] in F.
  unfold standardize. now rewrite F.
Qed.

(** C9.  The standardisation of a fund-type label is idempotent: applying
    [type_mapping.get(x, x)] twice gives what applying it once gives, for
    every cell [x]. *)
Theorem standardize_idempotent (x : pyval) :
  standardize (standardize x) = standardize x.
Proof.
  destruct x as [s| |]; try reflexivity.
  unfold standardize at 2 3.
  destruct (dict_get type_mapping s) as [t|] eqn:E.
  - now apply standardize_fixed with (s := s).
  - unfold standardize. now rewrite E.
Qed.

(** The same for the whole pass over a frame. *)
Lemma standardize_fund_types_idempotent (df : frame) :
  _standardize_fund_types (_standardize_fund_types df)
  = _standardize_fund_types df.
Proof.
  unfold _standardize_fund_types. rewrite map_map.
  apply map_ext. intros r. unfold set_TpFundo. cbn [TpFundo idx nome_fundo
    lancamento valor tipo_lancamento categoria nmcategorizado].
  f_equal. destruct (TpFundo r) as [s| |]; try reflexivity.
  unfold standardize at 2 3.
  destruct (dict_get type_mapping s) as [t|] eqn:E.
  - now apply standardize_fixed with (s := s).
  - unfold standardize. now rewrite E.
Qed.

(* ===================================================================== *)
(** * Frames: updates through labels                                      *)
(* ===================================================================== *)

Lemma nth_error_loc_set (labels : list Z) (f : row -> row) (df : frame)
    (pos : nat) :
  nth_error (loc_set labels f df) pos
  = option_map (fun r => if existsb (Z.eqb (idx r)) labels then f r else r)
      (nth_error df pos).
Proof. unfold loc_set. apply nth_error_map. Qed.

Lemma existsb_label (i : Z) (labels : list Z) :
  existsb (Z.eqb i) labels = true <-> In i labels.
Proof.
  rewrite existsb_exists. split.
  - intros [x [Hx E]]. apply Z.eqb_eq in E. now subst.
  - intros H. exists i. split; [assumption|apply Z.eqb_refl].
Qed.

Lemma loc_set_untouched (labels : list Z) (f : row -> row) (df : frame)
    (pos : nat) (r : row) :
  ~ In (idx r) labels ->
  nth_error df pos = Some r ->
  nth_error (loc_set labels f df) pos = Some r.
Proof.
  intros Hn E. rewrite nth_error_loc_set, E. cbn [option_map].
  destruct (existsb (Z.eqb (idx r)) labels) eqn:X; [|reflexivity].
  apply existsb_label in X. contradiction.
Qed.

Lemma loc_set_touched (labels : list Z) (f : row -> row) (df : frame)
    (pos : nat) (r : row) :
  In (idx r) labels ->
  nth_error df pos = Some r ->
  nth_error (loc_set labels f df) pos = Some (f r).
Proof.
  intros Hin E. rewrite nth_error_loc_set, E. cbn [option_map].
  apply existsb_label in Hin. now rewrite Hin.
Qed.

(** Rows of a frame with distinct labels are told apart by their label. *)
Lemma label_determines_row (df : frame) (a b : row) :
  NoDup (map idx df) -> In a df -> In b df -> idx a = idx b -> a = b.
Proof.
  induction df as [|r df IH]; cbn [map]; intros ND Ha Hb E; [contradiction|].
  inversion ND as [|? ? Hnot ND']; subst.
  destruct Ha as [->|Ha], Hb as [->|Hb]; auto.
  - exfalso. apply Hnot. rewrite E. now apply in_map.
  - exfalso. apply Hnot. rewrite <- E. now apply in_map.
Qed.

(* ===================================================================== *)
(** * The manual fund-type mapping                                        *)
(* ===================================================================== *)

Lemma manual_loop_frame (pending : list row) (df df' : frame)
    (pos : nat) (r : row) :
  manual_loop pending df = Ok df' ->
  (forall p, In p pending -> idx p <> idx r) ->
  nth_error df pos = Some r ->
  nth_error df' pos = Some r.
Proof.
  revert df. induction pending as [|p pending IH]; cbn [manual_loop];
    intros df H Hp E.
  - now injection H as <-.
  - destruct (nome_fundo p) as [name| |]; try discriminate.
    destruct (manual_lookup manual_mapping (upper name)) as [t|].
    + apply IH in H; auto.
      * intros q Hq. apply Hp. now right.
      * apply loc_set_untouched; [|assumption].
        cbn [In]. intros [X|[]]. apply (Hp p); [now left|assumption].
    + apply IH in H; auto. intros q Hq. apply Hp. now right.
Qed.

Lemma manual_loop_length (pending : list row) (df df' : frame) :
  manual_loop pending df = Ok df' -> List.length df' = List.length df.
Proof.
  revert df. induction pending as [|p pending IH]; cbn [manual_loop];
    intros df H.
  - now injection H as <-.
  - destruct (nome_fundo p) as [name| |]; try discriminate.
    destruct (manual_lookup manual_mapping (upper name)) as [t|].
    + apply IH in H. rewrite H. unfold loc_set. apply length_map.
    + now apply IH.
Qed.

(** C10.  On a frame whose index labels are distinct, the manual mapping
    leaves every row whose type is not "Outro" exactly as it was, at its
    position, whether or not its name contains a key of the mapping; and
    the frame keeps its length. *)
Theorem manual_mapping_only_touches_outro
    (df df' : frame) (pos : nat) (r : row) :
  NoDup (map idx df) ->
  _apply_manual_fund_type_mapping df = Ok df' ->
  nth_error df pos = Some r ->
  is_outro r = false ->
  nth_error df' pos = Some r /\ List.length df' = List.length df.
Proof.
  unfold _apply_manual_fund_type_mapping. intros ND H E Hr. split.
  - apply (manual_loop_frame _ _ pos H); [|assumption].
    intros p Hp Eidx. apply filter_In in Hp as [Hin Ho].
    assert (p = r) as ->.
    { apply (label_determines_row df); auto. eapply nth_error_In; eauto. }
    congruence.
  - now apply manual_loop_length in H.
Qed.

(** The mapping raises only on an "Outro" row whose name is no string. *)
Lemma manual_loop_total (pending : list row) (df : frame) :
  Forall (fun r => is_str (nome_fundo r) = true) pending ->
  exists df', manual_loop pending df = Ok df'.
Proof.
  revert df. induction pending as [|p pending IH]; cbn [manual_loop];
    intros df F.
  - now exists df.
  - inversion F as [|? ? Hp F']; subst.
    destruct (nome_fundo p) as [name| |]; try discriminate.
    destruct (manual_lookup manual_mapping (upper name)); now apply IH.
Qed.

Ltac nodup_labels :=
  vm_compute;
  repeat (apply NoDup_cons; [cbn [In]; intuition discriminate|]);
  apply NoDup_nil.

(** A FIDC row whose name contains the key "ALBAREDO FIDC" keeps its type
    while the "Outro" row next to it is retyped. *)
Lemma manual_mapping_only_touches_outro_witness :
  NoDup (map idx manual_rows)
  /\ _apply_manual_fund_type_mapping manual_rows = Ok manual_rows_after
  /\ nth_error manual_rows 0
     = Some (typed_row 0 "ALBAREDO FIDC" "FIDC" "ALBAREDO FIDC")
  /\ is_outro (typed_row 0 "ALBAREDO FIDC" "FIDC" "ALBAREDO FIDC") = false
  /\ (nth_error manual_rows_after 0
      = Some (typed_row 0 "ALBAREDO FIDC" "FIDC" "ALBAREDO FIDC")
      /\ List.length manual_rows_after = List.length manual_rows).
Proof.
  assert (H1 : NoDup (map idx manual_rows)) by nodup_labels.
  assert (H2 : _apply_manual_fund_type_mapping manual_rows = Ok manual_rows_after)
    by (vm_compute; reflexivity).
  assert (H3 : nth_error manual_rows 0
               = Some (typed_row 0 "ALBAREDO FIDC" "FIDC" "ALBAREDO FIDC"))
    by reflexivity.
  assert (H4 : is_outro (typed_row 0 "ALBAREDO FIDC" "FIDC" "ALBAREDO FIDC")
               = false) by (vm_compute; reflexivity).
  do 4 (split; [assumption|]).
  exact (manual_mapping_only_touches_outro manual_rows 0 H1 H2 H3 H4).
Defined.

(* ===================================================================== *)
(** * Expense categories                                                  *)
(* ===================================================================== *)

(** The table has no match exactly when no keyword of it, uppercased, occurs
    in the text. *)
Lemma table_lookup_none (table : dict (list pystr)) (text : pystr) :
  table_lookup table text = None
  <-> (forall cat kws kw, In (cat, kws) table -> In kw kws ->
         contains (upper kw) text = false).
Proof.
  induction table as [|[cat kws] table IH]; cbn [table_lookup].
  - split; [intros _ ? ? ? []|reflexivity].
  - destruct (existsb (fun keyword => contains (upper keyword) text) kws) eqn:E.
    + split; [discriminate|]. intros H. exfalso.
      apply existsb_exists in E as [kw [Hkw Hc]].
      rewrite (H cat kws kw) in Hc; [discriminate|now left|assumption].
    + rewrite IH. split.
      * intros H c k kw [[= <- <-]|Hin] Hkw; [|now apply (H c k kw)].
        destruct (contains (upper kw) text) eqn:X; [|reflexivity].
        assert (existsb (fun keyword => contains (upper keyword) text) kws = true)
          by (apply existsb_exists; eauto).
        congruence.
      * intros H c k kw Hin. apply (H c k kw). now right.
Qed.

(** C8 (as stated).  "Resgate líquido no dia" contains the phrase, yet its
    category is "Resgate": the phrase does not always give "Balanço Diário",
    and the keyword table is decided first. *)
Lemma liquido_no_dia_counterexample :
  ~ (forall text : pystr,
       contains (u "LIQUIDO NO DIA") (fold_ascii (upper text)) = true ->
       get_categoria (VStr text) = u "Balanço Diário").
Proof.
  intros H.
  assert (E : contains (u "LIQUIDO NO DIA")
                (fold_ascii (upper (u "Resgate líquido no dia"))) = true)
    by (vm_compute; reflexivity).
  apply H in E. vm_compute in E. discriminate.
Qed.

(** C8 (amended).  For a text whose uppercase form contains "LÍQUIDO NO DIA"
    or "LIQUIDO NO DIA", the category is the one the keyword table gives
    when a keyword of the table occurs in the text, and "Balanço Diário"
    otherwise: the table is decided ahead of the special phrase. *)
Theorem get_categoria_liquido_no_dia (text : pystr) :
  contains (u "LÍQUIDO NO DIA") (upper text)
  || contains (u "LIQUIDO NO DIA") (upper text) = true ->
  get_categoria (VStr text)
  = match table_lookup categoria_map (upper text) with
    | Some categoria => categoria
    | None => u "Balanço Diário"
    end.
Proof.
  intros H. unfold get_categoria.
  destruct (table_lookup categoria_map (upper text)); [reflexivity|].
  now rewrite H.
Qed.

(** "Saldo líquido no dia" contains the phrase and no keyword of the table:
    its category is "Balanço Diário". *)
Lemma get_categoria_liquido_no_dia_witness :
  contains (u "LÍQUIDO NO DIA") (upper (u "Saldo líquido no dia"))
  || contains (u "LIQUIDO NO DIA") (upper (u "Saldo líquido no dia")) = true
  /\ get_categoria (VStr (u "Saldo líquido no dia")) = u "Balanço Diário".
Proof.
  assert (H : contains (u "LÍQUIDO NO DIA") (upper (u "Saldo líquido no dia"))
              || contains (u "LIQUIDO NO DIA") (upper (u "Saldo líquido no dia"))
              = true) by (vm_compute; reflexivity).
  split; [assumption|].
  rewrite (get_categoria_liquido_no_dia (u "Saldo líquido no dia") H).
  vm_compute; reflexivity.
Defined.

(* ===================================================================== *)
(** * Redistribution: the scenarios                                       *)
(* ===================================================================== *)


(** C1 (failing input).  Three rows of a FIDC with one FIC: after
    [random.seed(42)] the shuffle leaves the labels as 1, 0, 2; one row is
    kept and two go to the FIC, so one row stays with the FIDC, fewer than
    [ceil(0.5 * 3) = 2]. *)
Theorem three_rows_one_retained :
  List.length (fidc_rows (u "ALFA FIDC") alfa_rows) = 3%nat
  /\ fst (_categorize_funds (seed 0) alfa_mapping alfa_rows) = Ok alfa_rows_after
  /\ List.length (filter own_name alfa_rows_after) = 1%nat
  /\ stay (outcome_of alfa_rows (u "ALFA FIDC") [u "ALFA FIC"]) = [1%Z]
  /\ (1 < half_up 3)%nat.
Proof.
  split; [vm_compute; reflexivity|].
  split; [vm_compute; reflexivity|].
  split; [vm_compute; reflexivity|].
  split; [vm_compute; reflexivity|].
  vm_compute. apply le_n.
Qed.

(* ===================================================================== *)
(** * The shuffle                                                         *)
(* ===================================================================== *)

Local Open Scope nat_scope.

Section ShuffleFacts.

Context {RS : RandomSource}.
Variable A : Type.

Lemma set_nth_perm (i : nat) (v a : A) (x : list A) :
  nth_error x i = Some a -> Permutation (v :: x) (a :: set_nth i v x).
Proof.
  revert i. induction x as [|b x IH]; intros [|i] H; cbn in H;
    try discriminate.
  - injection H as ->. cbn. apply perm_swap.
  - cbn [set_nth].
    apply perm_trans with (b :: v :: x); [apply perm_swap|].
    apply perm_trans with (b :: a :: set_nth i v x); [|apply perm_swap].
    apply perm_skip. now apply IH.
Qed.

Lemma nth_error_set_nth_hit (i j : nat) (a b : A) (x : list A) :
  nth_error x i = Some a -> nth_error x j = Some b ->
  nth_error (set_nth i b x) j = Some b.
Proof.
  revert i j. induction x as [|c x IH]; intros [|i] [|j] Hi Hj; cbn in *;
    try discriminate; auto.
Qed.

Lemma swap_perm (i j : nat) (x : list A) : Permutation (swap i j x) x.
Proof.
  unfold swap.
  destruct (nth_error x i) as [a|] eqn:Ei; [|reflexivity].
  destruct (nth_error x j) as [b|] eqn:Ej; [|reflexivity].
  apply Permutation_cons_inv with (a := b). symmetry.
  apply perm_trans with (a :: set_nth i b x).
  - now apply set_nth_perm.
  - apply set_nth_perm. now apply nth_error_set_nth_hit with (a := a).
Qed.

Lemma shuffle_from_perm (i : nat) (g : rng_state) (x : list A) :
  Permutation (fst (shuffle_from i g x)) x.
Proof.
  revert g x. induction i as [|i IH]; intros g x; cbn [shuffle_from].
  - reflexivity.
  - destruct (randbelow g (S (S i))) as [j g'].
    apply perm_trans with (swap (S i) j x); [apply IH|apply swap_perm].
Qed.

Lemma shuffle_perm (g : rng_state) (x : list A) :
  Permutation (fst (shuffle g x)) x.
Proof. apply shuffle_from_perm. Qed.

End ShuffleFacts.

(** The draws of the Mersenne Twister instance are below their bound, so
    [shuffle] only ever swaps positions that exist. *)
Lemma randbelow_loop_lt (fuel : nat) (n k : N) (s : MT19937.state) :
  (0 < n)%N -> (fst (MT19937.randbelow_loop fuel n k s) < n)%N.
Proof.
  intros Hn. revert s. induction fuel as [|fuel IH]; intros s;
    cbn [MT19937.randbelow_loop];
    destruct (MT19937.getrandbits k s) as [r s'];
    destruct (N.ltb_spec r n); cbn [fst]; auto.
Qed.

Lemma mersenne_randbelow_lt (s : MT19937.state) (n : nat) :
  0 < n -> fst (MT19937.randbelow_mt s n) < n.
Proof.
  intros Hn. unfold MT19937.randbelow_mt.
  pose proof (@randbelow_loop_lt MT19937.tries (N.of_nat n)
                (N.size (N.of_nat n)) s) as H.
  destruct (MT19937.randbelow_loop MT19937.tries (N.of_nat n)
              (N.size (N.of_nat n)) s) as [r s'].
  cbn [fst] in *. lia.
Qed.

(* ===================================================================== *)
(** * Redistribution: determinism                                         *)
(* ===================================================================== *)

Section Determinism.

Context {RS : RandomSource}.

(** One entry either reseeds the generator, and then forgets the state it
    started from, or changes nothing. *)
Lemma process_fidc_forgets_state (df : frame) (g1 g2 : rng_state)
    (entry : pystr * list pystr) :
  process_fidc (df, g1) entry = process_fidc (df, g2) entry
  \/ (process_fidc (df, g1) entry = (df, g1)
      /\ process_fidc (df, g2) entry = (df, g2)).
Proof.
  unfold process_fidc. destruct entry as [fidc_name fics_list].
  destruct (processed fics_list (List.length (fidc_rows fidc_name df)));
    [left; reflexivity|right; split; reflexivity].
Qed.

Lemma fold_process_fidc_forgets_state (fidc_to_fics : dict (list pystr))
    (df : frame) (g1 g2 : rng_state) :
  fst (fold_left process_fidc fidc_to_fics (df, g1))
  = fst (fold_left process_fidc fidc_to_fics (df, g2)).
Proof.
  revert df g1 g2.
  induction fidc_to_fics as [|entry rest IH]; intros df g1 g2;
    cbn [fold_left]; [reflexivity|].
  destruct (process_fidc_forgets_state df g1 g2 entry) as [E|[E1 E2]].
  - now rewrite E.
  - rewrite E1, E2. apply IH.
Qed.

Lemma fst_ok_pair (x : frame * rng_state) :
  fst (let '(df, g') := x in (Ok df, g')) = Ok (fst x).
Proof. now destruct x. Qed.

(** C3.  The result of the redistribution does not depend on the state of
    the random generator it is started in: each processed entry reseeds the
    generator with the constant 42 before it shuffles.  Two runs on the same
    rows and the same mapping therefore give every row the same categorised
    name and type. *)
Theorem categorize_funds_deterministic (g1 g2 : rng_state)
    (fidc_to_fics : dict (list pystr)) (df : frame) :
  fst (_categorize_funds g1 fidc_to_fics df)
  = fst (_categorize_funds g2 fidc_to_fics df).
Proof.
  unfold _categorize_funds.
  destruct (forallb is_str (firstn 5 (unique (map nome_fundo df))));
    [|reflexivity].
  rewrite !fst_ok_pair. f_equal.
  apply fold_process_fidc_forgets_state.
Qed.

(** A second run, started in the state the first run left, repeats it. *)
Lemma categorize_funds_rerun (g : rng_state)
    (fidc_to_fics : dict (list pystr)) (df : frame) :
  fst (_categorize_funds (snd (_categorize_funds g fidc_to_fics df))
         fidc_to_fics df)
  = fst (_categorize_funds g fidc_to_fics df).
Proof.
  generalize (snd (_categorize_funds g fidc_to_fics df)). intros g'.
  unfold _categorize_funds.
  destruct (forallb is_str (firstn 5 (unique (map nome_fundo df))));
    [|reflexivity].
  rewrite !fst_ok_pair. f_equal.
  apply fold_process_fidc_forgets_state.
Qed.

End Determinism.

(* ===================================================================== *)
(** * Redistribution: conservation                                        *)
(* ===================================================================== *)

Lemma firstn_add (A : Type) (n m : nat) (l : list A) :
  firstn (n + m) l = firstn n l ++ firstn m (skipn n l).
Proof.
  revert l. induction n as [|n IH]; intros [|a l]; cbn; auto.
  - now rewrite firstn_nil.
  - now rewrite IH.
Qed.

Lemma slice_rows_per_fic (dist : list Z) (i rpf : nat) :
  slice dist (i * rpf) (Nat.min ((i + 1) * rpf) (List.length dist))
  = firstn rpf (skipn (i * rpf) dist).
Proof.
  unfold slice.
  destruct (Nat.le_gt_cases rpf (List.length (skipn (i * rpf) dist))) as [H|H];
    rewrite length_skipn in H.
  - f_equal. lia.
  - rewrite !firstn_all2; auto; rewrite length_skipn; lia.
Qed.

(** The labels handed over are the first [k * rows_per_fic] labels to
    distribute, [k] being the number of FICs. *)
Lemma assignments_labels (fics : list pystr) (i rpf : nat) (dist : list Z) :
  1 <= rpf ->
  List.concat (map snd (assignments fics i rpf dist))
  = firstn (List.length fics * rpf) (skipn (i * rpf) dist).
Proof.
  intros Hrpf. revert i. induction fics as [|fic fics IH]; intros i;
    cbn [assignments List.length]; [reflexivity|].
  destruct (Nat.leb_spec (List.length dist) (i * rpf)) as [Hb|Hb].
  - rewrite skipn_all2 by assumption. now rewrite firstn_nil.
  - rewrite slice_rows_per_fic.
    replace (S (List.length fics) * rpf) with (rpf + List.length fics * rpf)
      by lia.
    rewrite firstn_add, skipn_skipn.
    replace (rpf + i * rpf) with (S i * rpf) by lia.
    rewrite <- IH.
    destruct (firstn rpf (skipn (i * rpf) dist)); reflexivity.
Qed.

Lemma distribute_apply_handed (fics : list pystr) (i rpf : nat)
    (dist : list Z) (df : frame) :
  distribute fics i rpf dist df = apply_handed (assignments fics i rpf dist) df.
Proof.
  revert i df. induction fics as [|fic fics IH]; intros i df;
    cbn [distribute assignments]; [reflexivity|].
  destruct (List.length dist <=? i * rpf); [reflexivity|].
  destruct (slice dist (i * rpf) (Nat.min ((i + 1) * rpf) (List.length dist)));
    [apply IH|].
  unfold apply_handed. cbn [fold_left fst snd]. apply IH.
Qed.

Lemma handed_count_length (o : outcome) :
  handed_count o = List.length (handed_labels o).
Proof.
  unfold handed_count, handed_labels.
  now rewrite length_concat, map_map.
Qed.

Lemma assign_untouched (fic : pystr) (ls : list Z) (df : frame)
    (pos : nat) (r : row) :
  ~ In (idx r) ls -> nth_error df pos = Some r ->
  nth_error (assign fic ls df) pos = Some r.
Proof.
  intros Hn E. unfold assign. now repeat apply loc_set_untouched.
Qed.

Lemma assign_touched (fic : pystr) (ls : list Z) (df : frame)
    (pos : nat) (r : row) :
  In (idx r) ls -> nth_error df pos = Some r ->
  nth_error (assign fic ls df) pos = Some (assigned_row fic r).
Proof.
  intros Hin E. unfold assign, assigned_row.
  apply loc_set_touched; [assumption|].
  now apply loc_set_touched.
Qed.

Lemma apply_handed_length (pl : list (pystr * list Z)) (df : frame) :
  List.length (apply_handed pl df) = List.length df.
Proof.
  revert df. induction pl as [|a pl IH]; intros df; [reflexivity|].
  unfold apply_handed in *. cbn [fold_left]. rewrite IH.
  unfold assign, loc_set. now rewrite !length_map.
Qed.

Lemma apply_handed_untouched (pl : list (pystr * list Z)) (df : frame)
    (pos : nat) (r : row) :
  ~ In (idx r) (List.concat (map snd pl)) ->
  nth_error df pos = Some r ->
  nth_error (apply_handed pl df) pos = Some r.
Proof.
  revert df. induction pl as [|a pl IH]; intros df Hn E; [assumption|].
  unfold apply_handed in *. cbn [fold_left]. cbn [map List.concat] in Hn.
  rewrite in_app_iff in Hn. apply IH; [tauto|].
  apply assign_untouched; [tauto|assumption].
Qed.

Lemma NoDup_app_disjoint (A : Type) (l1 l2 : list A) (x : A) :
  NoDup (l1 ++ l2) -> In x l1 -> In x l2 -> False.
Proof.
  induction l1 as [|a l1 IH]; cbn [app]; intros ND H1 H2; [contradiction|].
  inversion ND as [|? ? Hn ND']; subst.
  destruct H1 as [->|H1]; [|now apply IH].
  apply Hn. apply in_or_app. now right.
Qed.

Lemma apply_handed_assigned (pl : list (pystr * list Z)) (df : frame)
    (pos : nat) (r : row) (fic : pystr) (ls : list Z) :
  NoDup (List.concat (map snd pl)) ->
  In (fic, ls) pl -> In (idx r) ls ->
  nth_error df pos = Some r ->
  nth_error (apply_handed pl df) pos = Some (assigned_row fic r).
Proof.
  revert df. induction pl as [|a pl IH]; intros df ND Hin Hl E;
    [contradiction|].
  cbn [map List.concat] in ND.
  change (apply_handed (a :: pl) df)
    with (apply_handed pl (assign (fst a) (snd a) df)).
  destruct Hin as [->|Hin].
  - cbn [fst snd] in *. apply apply_handed_untouched.
    + change (idx (assigned_row fic r)) with (idx r).
      intros X. exact (NoDup_app_disjoint _ _ _ ND Hl X).
    + now apply assign_touched.
  - apply IH; auto.
    + now apply NoDup_app_remove_l in ND.
    + apply assign_untouched; [|assumption].
      assert (In (idx r) (List.concat (map snd pl))) as Y.
      { apply in_concat. exists ls. split; [|assumption].
        change ls with (snd (fic, ls)). now apply in_map. }
      intros X. exact (NoDup_app_disjoint _ _ _ ND X Y).
Qed.

(** Selecting the rows of a FIDC keeps the labels distinct. *)
Lemma fidc_rows_labels_distinct (fidc_name : pystr) (df : frame) :
  NoDup (map idx df) -> NoDup (map idx (fidc_rows fidc_name df)).
Proof.
  unfold fidc_rows. induction df as [|r df IH]; intros ND; [exact ND|].
  cbn [map filter] in *. apply NoDup_cons_iff in ND as [Hfresh ND].
  destruct (fidc_match fidc_name (nome_fundo r)); [|now apply IH].
  cbn [map]. apply NoDup_cons; [|now apply IH].
  contradict Hfresh. apply in_map_iff in Hfresh as [r' [E Hr']].
  apply filter_In in Hr' as [Hr' _]. rewrite <- E. now apply in_map.
Qed.

Section Conservation.

Context {RS : RandomSource}.

Lemma split_rows_perm (labels : list Z) (num_fics : nat) :
  Permutation labels
    (keep_indices (fst (split_rows labels num_fics))
       ++ distribute_indices (fst (split_rows labels num_fics))).
Proof.
  unfold split_rows.
  pose proof (shuffle_perm (seed 42) labels) as P.
  destruct (shuffle (seed 42) labels) as [sh g].
  cbn [fst keep_indices distribute_indices] in *.
  rewrite firstn_skipn. now symmetry.
Qed.

Lemma split_rows_keep (labels : list Z) (num_fics : nat) :
  List.length (keep_indices (fst (split_rows labels num_fics)))
  = Nat.min (Nat.max (List.length labels / 2) 1) (List.length labels).
Proof.
  unfold split_rows.
  pose proof (shuffle_perm (seed 42) labels) as P.
  destruct (shuffle (seed 42) labels) as [sh g].
  cbn [fst keep_indices] in *.
  rewrite length_firstn. now rewrite (Permutation_length P).
Qed.

Lemma split_rows_per_fic (labels : list Z) (num_fics : nat) :
  1 <= rows_per_fic (fst (split_rows labels num_fics)).
Proof.
  unfold split_rows. destruct (shuffle (seed 42) labels) as [sh g].
  cbn [fst rows_per_fic]. apply Nat.le_max_l.
Qed.

(** Every selected row is either kept or handed to exactly one FIC. *)
Lemma outcome_perm (df : frame) (fidc_name : pystr) (fics_list : list pystr) :
  Permutation (map idx (fidc_rows fidc_name df))
    (stay (outcome_of df fidc_name fics_list)
       ++ handed_labels (outcome_of df fidc_name fics_list)).
Proof.
  unfold outcome_of, handed_labels.
  set (labels := map idx (fidc_rows fidc_name df)).
  destruct (processed fics_list (List.length labels)); cbn [stay handed].
  - rewrite assignments_labels by apply split_rows_per_fic.
    cbn [Nat.mul skipn]. rewrite <- app_assoc.
    apply perm_trans with (1 := split_rows_perm labels (List.length fics_list)).
    apply Permutation_app_head.
    set (n := List.length fics_list * _). set (dist := distribute_indices _).
    rewrite <- (firstn_skipn n dist) at 1. apply Permutation_app_comm.
  - cbn [map List.concat]. now rewrite app_nil_r.
Qed.

Lemma process_fidc_apply_handed (df : frame) (g : rng_state)
    (fidc_name : pystr) (fics_list : list pystr) :
  fst (process_fidc (df, g) (fidc_name, fics_list))
  = apply_handed (handed (outcome_of df fidc_name fics_list)) df.
Proof.
  unfold process_fidc, outcome_of. rewrite length_map.
  destruct (processed fics_list (List.length (fidc_rows fidc_name df))).
  - destruct (split_rows (map idx (fidc_rows fidc_name df))
                (List.length fics_list)) as [p g'].
    cbn [fst handed]. apply distribute_apply_handed.
  - reflexivity.
Qed.

(** One iteration of the loop, taken on its own.  On a frame with distinct
    index labels, one entry of the mapping divides the N rows it selects
    into rows that stay with the parent and rows handed to its FICs: each
    selected row is in exactly one of the two groups, the counts add up to
    N, the frame keeps its length, a row that is not handed over is
    unchanged, and a row handed to a FIC carries that FIC's name and type.
    What later iterations do to these rows is the subject of
    [categorize_funds_conserves_rows]. *)
Lemma process_fidc_conserves (df : frame) (g : rng_state)
    (fidc_name : pystr) (fics_list : list pystr) :
  NoDup (map idx df) ->
  conserved df fidc_name fics_list
    (fst (process_fidc (df, g) (fidc_name, fics_list))).
Proof.
  intros ND. unfold conserved.
  pose proof (outcome_perm df fidc_name fics_list) as P.
  assert (NDo : NoDup (stay (outcome_of df fidc_name fics_list)
                         ++ handed_labels (outcome_of df fidc_name fics_list))).
  { apply (Permutation_NoDup P). now apply fidc_rows_labels_distinct. }
  rewrite process_fidc_apply_handed.
  split; [exact P|]. split.
  { rewrite handed_count_length, <- length_app, <- (Permutation_length P).
    apply length_map. }
  split; [apply apply_handed_length|]. split.
  - intros pos r E Hn. now apply apply_handed_untouched.
  - intros pos r fic ls E Hin Hl.
    apply apply_handed_assigned with (ls := ls); auto.
    now apply NoDup_app_remove_l in NDo.
Qed.

(** The plan of one entry keeps at least [floor(N / 2)] of the N labels it
    selects, and at least one when there is one. *)
Lemma retention_floor (df : frame) (fidc_name : pystr)
    (fics_list : list pystr) :
  Nat.min (Nat.max (List.length (fidc_rows fidc_name df) / 2) 1)
          (List.length (fidc_rows fidc_name df))
  <= List.length (stay (outcome_of df fidc_name fics_list)).
Proof.
  unfold outcome_of. rewrite length_map.
  destruct (processed fics_list (List.length (fidc_rows fidc_name df)));
    cbn [stay].
  - rewrite length_app, split_rows_keep, length_map. lia.
  - rewrite length_map. lia.
Qed.

End Conservation.

(** Five rows of "BETA FIDC" and two FICs: the shuffle orders the labels as
    14, 11, 13, 15, 10; rows 14 and 11 are kept, row 13 goes to the first FIC
    and row 15 to the second, and row 10, which the integer division leaves
    over, stays as well. *)
Lemma beta_outcome :
  outcome_of beta_rows (u "BETA FIDC") beta_fics
  = {| stay := [14; 11; 10]%Z;
       handed := [ (u "BETA FIC FIM", [13%Z]); (u "GAMA FIC", [15%Z]) ] |}.
Proof. vm_compute; reflexivity. Qed.


(* ===================================================================== *)
(** * Redistribution: the whole run                                       *)
(* ===================================================================== *)

Section Columns.

Context {RS : RandomSource}.

(** A column other than [TpFundo] and [nmcategorizado]. *)
Variable B : Type.
Variable column : row -> B.
Hypothesis column_TpFundo : forall v r, column (set_TpFundo v r) = column r.
Hypothesis column_nmcategorizado :
  forall v r, column (set_nmcategorizado v r) = column r.

Lemma loc_set_column (labels : list Z) (f : row -> row) (df : frame) :
  (forall r, column (f r) = column r) ->
  map column (loc_set labels f df) = map column df.
Proof.
  intros Hf. unfold loc_set. rewrite map_map. apply map_ext.
  intros r. now destruct (existsb (Z.eqb (idx r)) labels).
Qed.

Lemma apply_handed_column (pl : list (pystr * list Z)) (df : frame) :
  map column (apply_handed pl df) = map column df.
Proof.
  revert df. induction pl as [|a pl IH]; intros df; [reflexivity|].
  change (apply_handed (a :: pl) df)
    with (apply_handed pl (assign (fst a) (snd a) df)).
  rewrite IH. unfold assign. now rewrite !loc_set_column.
Qed.

Lemma fold_process_fidc_column (fidc_to_fics : dict (list pystr))
    (df : frame) (g : rng_state) :
  map column (fst (fold_left process_fidc fidc_to_fics (df, g)))
  = map column df.
Proof.
  revert df g. induction fidc_to_fics as [|[fidc_name fics_list] rest IH];
    intros df g; [reflexivity|].
  cbn [fold_left].
  rewrite (surjective_pairing (process_fidc (df, g) (fidc_name, fics_list))).
  rewrite IH, process_fidc_apply_handed. apply apply_handed_column.
Qed.

Lemma categorize_funds_column (g : rng_state)
    (fidc_to_fics : dict (list pystr)) (df df' : frame) :
  fst (_categorize_funds g fidc_to_fics df) = Ok df' ->
  map column df' = map column df.
Proof.
  unfold _categorize_funds.
  destruct (forallb is_str (firstn 5 (unique (map nome_fundo df))));
    [|discriminate].
  rewrite fst_ok_pair. intros [= <-].
  rewrite fold_process_fidc_column, map_map. now apply map_ext.
Qed.

End Columns.

(** X25.  Over the whole mapping the redistribution neither adds nor drops nor
    reorders rows, and writes no column but [TpFundo] and
    [nmcategorizado]. *)
Lemma categorize_funds_preserves_rows (RS : RandomSource) (g : rng_state)
    (fidc_to_fics : dict (list pystr)) (df df' : frame) :
  fst (_categorize_funds g fidc_to_fics df) = Ok df' ->
  map idx df' = map idx df
  /\ map nome_fundo df' = map nome_fundo df
  /\ map lancamento df' = map lancamento df
  /\ map valor df' = map valor df
  /\ map tipo_lancamento df' = map tipo_lancamento df
  /\ map categoria df' = map categoria df.
Proof.
  intros H.
  split; [exact (@categorize_funds_column RS _ idx
                   (fun _ _ => eq_refl) (fun _ _ => eq_refl) g _ _ _ H)|].
  split; [exact (@categorize_funds_column RS _ nome_fundo
                   (fun _ _ => eq_refl) (fun _ _ => eq_refl) g _ _ _ H)|].
  split; [exact (@categorize_funds_column RS _ lancamento
                   (fun _ _ => eq_refl) (fun _ _ => eq_refl) g _ _ _ H)|].
  split; [exact (@categorize_funds_column RS _ valor
                   (fun _ _ => eq_refl) (fun _ _ => eq_refl) g _ _ _ H)|].
  split; [exact (@categorize_funds_column RS _ tipo_lancamento
                   (fun _ _ => eq_refl) (fun _ _ => eq_refl) g _ _ _ H)|].
  exact (@categorize_funds_column RS _ categoria
           (fun _ _ => eq_refl) (fun _ _ => eq_refl) g _ _ _ H).
Qed.

Lemma unique_subset (l : list pyval) (v : pyval) : In v (unique l) -> In v l.
Proof.
  induction l as [|a l IH]; cbn [unique]; [auto|].
  intros [->|H]; [now left|]. right. apply IH.
  now apply filter_In in H as [H _].
Qed.

Lemma firstn_subset (A : Type) (n : nat) (l : list A) (v : A) :
  In v (firstn n l) -> In v l.
Proof.
  revert l. induction n as [|n IH]; intros [|a l]; cbn [firstn In];
    try contradiction.
  intros [->|H]; auto.
Qed.

(** X26.  The redistribution returns a frame whenever every fund name is a
    string. *)
Lemma categorize_funds_returns (RS : RandomSource) (g : rng_state)
    (fidc_to_fics : dict (list pystr)) (df : frame) :
  (forall r, In r df -> is_str (nome_fundo r) = true) ->
  exists df', fst (_categorize_funds g fidc_to_fics df) = Ok df'.
Proof.
  intros Hstr. unfold _categorize_funds.
  assert (forallb is_str (firstn 5 (unique (map nome_fundo df))) = true) as ->.
  { apply forallb_forall. intros v Hv.
    apply firstn_subset, unique_subset, in_map_iff in Hv.
    destruct Hv as [r [<- Hr]]. now apply Hstr. }
  rewrite fst_ok_pair. eauto.
Qed.

(* ===================================================================== *)
(** * Case mappings                                                       *)
(* ===================================================================== *)

(** One comparison of code points at a time, dropping the cases the facts
    already known exclude. *)
Ltac code_point_case :=
  match goal with
  | |- context [N.leb ?a ?b] => destruct (N.leb_spec a b); try lia
  | |- context [N.eqb ?a ?b] => destruct (N.eqb_spec a b); try lia
  | |- context [N.ltb ?a ?b] => destruct (N.ltb_spec a b); try lia
  end; cbn [andb orb negb].

Lemma startswith_refl (s : pystr) : startswith s s = true.
Proof.
  induction s as [|c s IH]; cbn [startswith]; [reflexivity|].
  now rewrite N.eqb_refl, IH.
Qed.

Lemma contains_refl (s : pystr) : contains s s = true.
Proof. destruct s; cbn [contains]; now rewrite startswith_refl. Qed.

Lemma upper_char_fixed (c : N) :
  flat_map upper_char (upper_char c) = upper_char c.
Proof.
  unfold upper_char at 2 3.
  repeat code_point_case; cbn [flat_map app]; unfold upper_char;
    repeat code_point_case; reflexivity.
Qed.

Lemma upper_idempotent (s : pystr) : upper (upper s) = upper s.
Proof.
  unfold upper. induction s as [|c s IH]; cbn [flat_map]; [reflexivity|].
  now rewrite flat_map_app, upper_char_fixed, IH.
Qed.

Lemma lower_char_fixed (c : N) : lower_char (lower_char c) = lower_char c.
Proof.
  unfold lower_char at 2 3.
  repeat code_point_case; unfold lower_char; repeat code_point_case;
    reflexivity.
Qed.

Lemma lower_idempotent (s : pystr) : lower (lower s) = lower s.
Proof.
  unfold lower. rewrite map_map. apply map_ext. apply lower_char_fixed.
Qed.

(** After a cased code point [title] never writes a capital T. *)
Lemma title_from_cased_no_T (s rest : pystr) :
  title_from true s <> 84%N :: rest.
Proof.
  destruct s as [|c s]; cbn [title_from app]; [discriminate|].
  intros Etitle. injection Etitle as Ec _. revert Ec. unfold lower_char.
  repeat code_point_case; lia.
Qed.

Lemma title_never_BTG (s : pystr) : title s <> u "BTG".
Proof.
  change (u "BTG") with [66; 84; 71]%N. unfold title.
  destruct s as [|c s]; cbn [title_from]; [discriminate|].
  unfold title_char, upper_char.
  repeat code_point_case; cbn [app]; intros Etitle;
    injection Etitle as Ec Etitle; try lia.
  - assert (c = 98%N) by lia. subst c.
    now apply title_from_cased_no_T in Etitle.
  - subst c. now apply title_from_cased_no_T in Etitle.
Qed.

(* ===================================================================== *)
(** * Which extractor serves which custodian                              *)
(* ===================================================================== *)

(** X1.  [ExtractorFactory.get_extractor] never answers the BTG extractor:
    it looks its argument up after [title()], and no titlecased string is
    "BTG", the key the BTG extractor is registered under. *)
Theorem factory_never_gives_btg (custodiante : pystr) :
  Extractors.get_extractor custodiante <> Some Extractors.BTGExtractor.
Proof.
  unfold Extractors.get_extractor, Extractors.extractor_map.
  cbn [dict_get]. unfold PyStr.eqb.
  destruct (list_eq_dec N.eq_dec (u "BTG") (title (strip custodiante)))
    as [E|_].
  - exfalso. symmetry in E. now apply title_never_BTG in E.
  - repeat match goal with
    | |- context [list_eq_dec N.eq_dec ?a ?b] =>
        destruct (list_eq_dec N.eq_dec a b)
    end; discriminate.
Qed.

(** X2.  Whatever custodian [detect_custodiante] reads off a file name, the
    chain of main.py has an extractor for it; the factory has one too,
    except for BTG. *)
Theorem detected_custodian_is_served (filename custodiante : pystr) :
  Extractors.detect_custodiante filename = Some custodiante ->
  (exists e, Extractors.select_extractor custodiante = Some e)
  /\ (Extractors.get_extractor custodiante = None <-> custodiante = u "BTG").
Proof.
  unfold Extractors.detect_custodiante.
  repeat match goal with
  | |- context [contains ?a ?b] => destruct (contains a b)
  end; intros [= <-]; (split; [eexists; vm_compute; reflexivity|]);
    split; intros E; vm_compute in E |- *; congruence.
Qed.

Lemma detected_custodian_is_served_witness :
  Extractors.detect_custodiante (u "CaixaExtrato_07-05-2025.xlsx")
  = Some (u "BTG")
  /\ ((exists e, Extractors.select_extractor (u "BTG") = Some e)
      /\ (Extractors.get_extractor (u "BTG") = None <-> u "BTG" = u "BTG")).
Proof.
  assert (H : Extractors.detect_custodiante (u "CaixaExtrato_07-05-2025.xlsx")
              = Some (u "BTG")) by (vm_compute; reflexivity).
  split; [assumption|].
  exact (detected_custodian_is_served (u "CaixaExtrato_07-05-2025.xlsx") H).
Defined.

(* ===================================================================== *)
(** * Entry texts: categories, expenses, normalisation, column names      *)
(* ===================================================================== *)

Lemma table_lookup_cons (cat : pystr) (kws : list pystr)
    (table : dict (list pystr)) (text : pystr) (res : option pystr) :
  table_lookup ((cat, kws) :: table) text = res ->
  (existsb (fun keyword => contains (upper keyword) text) kws = true
   /\ res = Some cat)
  \/ (existsb (fun keyword => contains (upper keyword) text) kws = false
      /\ table_lookup table text = res).
Proof.
  cbn [table_lookup].
  destruct (existsb (fun keyword => contains (upper keyword) text) kws);
    intros <-; auto.
Qed.

Lemma table_lookup_not_outros (text : pystr) :
  table_lookup categoria_map text <> Some (u "Outros").
Proof.
  unfold categoria_map. intros H.
  do 11 (apply table_lookup_cons in H as [[_ H]|[_ H]];
           [vm_compute in H; discriminate|]).
  apply table_lookup_cons in H as [[E _]|[_ H]]; discriminate.
Qed.

(** X3.  The default category "Outros" is given to exactly the texts in
    which no keyword of the table occurs (uppercased, in the uppercased
    text) and neither spelling of the daily-balance phrase. *)
Theorem get_categoria_outros (text : pystr) :
  get_categoria (VStr text) = u "Outros"
  <-> ((forall cat kws kw, In (cat, kws) categoria_map -> In kw kws ->
          contains (upper kw) (upper text) = false)
       /\ contains (u "LÍQUIDO NO DIA") (upper text) = false
       /\ contains (u "LIQUIDO NO DIA") (upper text) = false).
Proof.
  rewrite <- table_lookup_none. unfold get_categoria.
  destruct (table_lookup categoria_map (upper text)) as [cat|] eqn:E.
  - split.
    + intros ->. now apply table_lookup_not_outros in E.
    + intros [? _]. discriminate.
  - destruct (contains (u "LÍQUIDO NO DIA") (upper text));
      destruct (contains (u "LIQUIDO NO DIA") (upper text)); cbn [orb];
      split; try (intros X; vm_compute in X; discriminate);
      try (intros [_ [? ?]]; discriminate); auto.
Qed.

(** The category does not depend on the case of the text: a text and
    its uppercase form get the same category. *)
Theorem get_categoria_ignores_case (text : pystr) :
  get_categoria (VStr (upper text)) = get_categoria (VStr text).
Proof. unfold get_categoria. now rewrite upper_idempotent. Qed.

Lemma existsb_mapped (A B : Type) (f : B -> bool) (g : A -> B) (l : list A) :
  existsb f (map g l) = existsb (fun a => f (g a)) l.
Proof.
  induction l as [|a l IH]; cbn [map existsb]; [reflexivity|].
  now rewrite IH.
Qed.

(** X4.  An entry is flagged as expense exactly when one of the configured
    phrases, uppercased, occurs in the uppercased entry: the equality test
    that comes first adds nothing, and case plays no part. *)
Theorem is_despesa_occurrence (despesas_list : list pystr) (text : pystr) :
  Lancamentos.is_despesa despesas_list (VStr text)
  = existsb (fun desp => contains (upper desp) (upper text)) despesas_list.
Proof.
  unfold Lancamentos.is_despesa. rewrite !existsb_mapped.
  destruct (existsb (fun a => PyStr.eqb (upper text) (upper a)) despesas_list)
    eqn:E; [|reflexivity].
  symmetry. apply existsb_exists in E as [d [Hd E]].
  apply existsb_exists. exists d. split; [assumption|].
  unfold PyStr.eqb in E.
  destruct (list_eq_dec N.eq_dec (upper text) (upper d)) as [<-|]; 
    [apply contains_refl|discriminate].
Qed.

Lemma first_key_in_some (m : dict pystr) (text v : pystr) :
  Lancamentos.first_key_in m text = Some v ->
  exists k, In (k, v) m /\ contains (lower k) (lower text) = true.
Proof.
  induction m as [|[k w] m IH]; cbn [Lancamentos.first_key_in];
    [discriminate|].
  destruct (contains (lower k) (lower text)) eqn:E.
  - intros [= ->]. exists k. split; [now left|assumption].
  - intros H. destruct (IH H) as [k' [Hin Hc]]. exists k'. split; auto.
    now right.
Qed.

Lemma first_key_in_none (m : dict pystr) (text : pystr) :
  Lancamentos.first_key_in m text = None ->
  forall k w, In (k, w) m -> contains (lower k) (lower text) = false.
Proof.
  induction m as [|[k w] m IH]; cbn [Lancamentos.first_key_in];
    intros H k' w' Hin; [contradiction|].
  destruct (contains (lower k) (lower text)) eqn:E; [discriminate|].
  destruct Hin as [[= <- <-]|Hin]; [assumption|now apply (IH H k' w')].
Qed.

(** X5.  [normalize_lancamento] answers the stripped text when no key of the
    map occurs in it (both lowercased), and otherwise the value of a key
    that does occur: it never invents a text. *)
Theorem normalize_lancamento_result (lancamentos_map : dict pystr)
    (text : pystr) :
  exists v,
    Lancamentos.normalize_lancamento lancamentos_map (VStr text) = VStr v
    /\ ((v = strip text
         /\ forall k w, In (k, w) lancamentos_map ->
              contains (lower k) (lower (strip text)) = false)
        \/ exists k, In (k, v) lancamentos_map
                     /\ contains (lower k) (lower (strip text)) = true).
Proof.
  unfold Lancamentos.normalize_lancamento.
  destruct (dict_get lancamentos_map (strip text)) as [v|] eqn:E.
  - exists v. split; [reflexivity|]. right. exists (strip text).
    split; [now apply dict_get_In|apply contains_refl].
  - destruct (Lancamentos.first_key_in lancamentos_map (strip text))
      as [v|] eqn:F.
    + exists v. split; [reflexivity|]. right. now apply first_key_in_some.
    + exists (strip text). split; [reflexivity|]. left.
      split; [reflexivity|]. now apply first_key_in_none.
Qed.

Lemma filter_all (A : Type) (p : A -> bool) (l : list A) :
  Forall (fun a => p a = true) l -> filter p l = l.
Proof.
  induction 1 as [|a l Ha _ IH]; cbn [filter]; [reflexivity|].
  now rewrite Ha, IH.
Qed.

Lemma filter_kept (A : Type) (p : A -> bool) (l : list A) :
  Forall (fun a => p a = true) (filter p l).
Proof.
  apply Forall_forall. intros a Ha. now apply filter_In in Ha.
Qed.

Lemma lstrip_no_space (s : pystr) :
  Forall (fun c => isspace c = false) s -> lstrip s = s.
Proof. intros [|c s' Hc _]; cbn [lstrip]; [reflexivity|now rewrite Hc]. Qed.

Lemma strip_no_space (s : pystr) :
  Forall (fun c => isspace c = false) s -> strip s = s.
Proof.
  intros H. unfold strip, rstrip. rewrite (lstrip_no_space H).
  rewrite lstrip_no_space by now apply Forall_rev.
  apply rev_involutive.
Qed.

(** Replacing one code point by another is a pointwise substitution. *)
Lemma replace_code_point (a b : N) (s : pystr) :
  replace [a] [b] s = map (fun c => if N.eqb a c then b else c) s.
Proof.
  cbn [replace]. induction s as [|c s IH]; cbn [replace_from map];
    [reflexivity|].
  cbn [startswith List.length Nat.sub]. rewrite andb_true_r.
  destruct (N.eqb a c); cbn [app]; now rewrite IH.
Qed.

(** Removing one code point is a filter. *)
Lemma remove_code_point (a : N) (s : pystr) :
  replace [a] [] s = filter (fun c => negb (N.eqb a c)) s.
Proof.
  cbn [replace]. induction s as [|c s IH]; cbn [replace_from filter];
    [reflexivity|].
  cbn [startswith List.length Nat.sub]. rewrite andb_true_r.
  destruct (N.eqb a c); cbn [app negb]; now rewrite IH.
Qed.

Lemma contains_code_point (a : N) (s : pystr) :
  contains [a] s = existsb (N.eqb a) s.
Proof.
  induction s as [|c s IH]; cbn [contains startswith existsb];
    [reflexivity|].
  now rewrite andb_true_r, IH.
Qed.

Lemma column_char_plain (c : N) :
  Lancamentos.column_char c = true ->
  isspace c = false /\ lower_char c = c /\ N.eqb 32 c = false.
Proof.
  unfold Lancamentos.column_char, isspace, lower_char.
  repeat code_point_case; intros; try discriminate; repeat split;
    repeat code_point_case; reflexivity.
Qed.

(** X6.  A column name that [normalize_columns] has produced consists of the
    characters a-z, 0-9 and _ only, and normalising it again changes
    nothing. *)
Theorem normalize_column_idempotent (col : pystr) :
  Forall (fun c => Lancamentos.column_char c = true)
    (Lancamentos.normalize_column col)
  /\ Lancamentos.normalize_column (Lancamentos.normalize_column col)
     = Lancamentos.normalize_column col.
Proof.
  assert (K : Forall (fun c => Lancamentos.column_char c = true)
                (Lancamentos.normalize_column col))
    by apply filter_kept.
  split; [exact K|].
  set (s := Lancamentos.normalize_column col) in *.
  unfold Lancamentos.normalize_column.
  rewrite strip_no_space.
  2:{ eapply Forall_impl; [|exact K]. intros c Hc.
      now apply column_char_plain in Hc. }
  assert (L : lower s = s).
  { unfold lower. rewrite <- (map_id s) at 2. apply map_ext_Forall.
    eapply Forall_impl; [|exact K]. intros c Hc.
    now apply column_char_plain in Hc. }
  rewrite L. change (u " ") with [32%N]. change (u "_") with [95%N].
  rewrite replace_code_point.
  assert (R : map (fun c => if N.eqb 32 c then 95%N else c) s = s).
  { rewrite <- (map_id s) at 2. apply map_ext_Forall.
    eapply Forall_impl; [|exact K]. intros c Hc.
    apply column_char_plain in Hc as [_ [_ ->]]. reflexivity. }
  rewrite R. now apply filter_all.
Qed.

(* ===================================================================== *)
(** * Amounts                                                             *)
(* ===================================================================== *)

Lemma fabs_not_negative (x : pyfloat) : flt0 (fabs x) = false.
Proof.
  destruct x as [q|b|]; cbn [fabs flt0]; try reflexivity.
  apply negb_false_iff, Qle_bool_iff.
  rewrite Qred_correct. apply Qabs_nonneg.
Qed.

Lemma fabs_nan (x : pyfloat) : fabs x = FNaN -> x = FNaN.
Proof. destruct x; cbn [fabs]; congruence. Qed.

Lemma zero_not_negative (x : pyfloat) : fne0 x = false -> flt0 x = false.
Proof.
  destruct x as [q|b|]; cbn [fne0 flt0]; try discriminate.
  intros H. apply negb_false_iff in H. apply Qeq_bool_iff in H.
  apply negb_false_iff, Qle_bool_iff. rewrite H. apply Qle_refl.
Qed.

(** X7.  The Master rule never leaves NaN as amount, and the amount is
    negative exactly when no debit counts (it is missing or zero) and the
    credit value is negative. *)
Theorem master_amount_sign (credito debito : pyval) :
  Master.valor (fst (Master.normalize_master_row credito debito)) <> FNaN
  /\ flt0 (Master.valor (fst (Master.normalize_master_row credito debito)))
     = negb (fnotna (fst (Master.convert_monetary_value debito))
             && fne0 (fst (Master.convert_monetary_value debito)))
       && flt0 (fst (Master.convert_monetary_value credito)).
Proof.
  unfold Master.normalize_master_row.
  destruct (Master.convert_monetary_value credito) as [c w1].
  destruct (Master.convert_monetary_value debito) as [d w2].
  cbn [fst].
  destruct (fnotna d && fne0 d) eqn:Md; cbn [negb andb Master.valor fst].
  - split; [|apply fabs_not_negative].
    intros E. apply fabs_nan in E. subst d. discriminate.
  - destruct (fnotna c && fne0 c) eqn:Mc; cbn [Master.valor].
    + split; [|reflexivity]. intros ->. discriminate.
    + split; [discriminate|].
      destruct c as [q|b|]; try reflexivity; cbn [fnotna andb] in Mc.
      * symmetry. now apply zero_not_negative.
      * discriminate.
Qed.


(** The rule of the BTG extractor: the kind is "Crédito" exactly when the
    value is at least zero, so a value that could not be read (NaN) is a
    "Débito" whose amount stays NaN. *)
Lemma btg_unreadable_is_debit :
  Master.normalize_btg_row FNaN
  = {| Master.valor := FNaN; Master.tipo_lancamento := u "Débito" |}.
Proof. reflexivity. Qed.

Lemma master_debit_wins_witness :
  fnotna (fst (Master.convert_monetary_value (VStr (u "25,00"))))
  && fne0 (fst (Master.convert_monetary_value (VStr (u "25,00")))) = true
  /\ fst (Master.normalize_master_row (VStr (u "100,00")) (VStr (u "25,00")))
     = {| Master.valor := fabs (fst (Master.convert_monetary_value
                                       (VStr (u "25,00"))));
          Master.tipo_lancamento := u "Débito" |}.
Proof.
  assert (H : fnotna (fst (Master.convert_monetary_value (VStr (u "25,00"))))
              && fne0 (fst (Master.convert_monetary_value (VStr (u "25,00"))))
              = true) by (vm_compute; reflexivity).
  split; [assumption|].
  exact (master_debit_wins (VStr (u "100,00")) (VStr (u "25,00")) H).
Defined.

(* ===================================================================== *)
(** * The monetary parser on arbitrary texts                              *)
(* ===================================================================== *)

Lemma filter_swap (A : Type) (p q : A -> bool) (l : list A) :
  filter p (filter q l) = filter q (filter p l).
Proof.
  induction l as [|a l IH]; cbn [filter]; [reflexivity|].
  destruct (p a) eqn:Pa, (q a) eqn:Qa; cbn [filter];
    rewrite ?Pa, ?Qa, IH; reflexivity.
Qed.

Lemma filter_twice (A : Type) (p : A -> bool) (l : list A) :
  filter p (filter p l) = filter p l.
Proof. apply filter_all, filter_kept. Qed.

Lemma existsb_filter_kept (A : Type) (f p : A -> bool) (l : list A) :
  (forall a, f a = true -> p a = true) ->
  existsb f (filter p l) = existsb f l.
Proof.
  intros K. induction l as [|a l IH]; cbn [filter existsb]; [reflexivity|].
  destruct (p a) eqn:Pa; cbn [existsb]; rewrite IH; [reflexivity|].
  destruct (f a) eqn:Fa; [|reflexivity].
  apply K in Fa. congruence.
Qed.

Lemma existsb_none_filter (a : N) (s : pystr) :
  existsb (N.eqb a) s = false -> filter (fun c => negb (N.eqb a c)) s = s.
Proof.
  intros H. apply filter_all, Forall_forall. intros c Hc.
  destruct (N.eqb a c) eqn:E; [|reflexivity].
  assert (existsb (N.eqb a) s = true) by (apply existsb_exists; eauto).
  congruence.
Qed.

Lemma strip_between (a b : N) (s : pystr) :
  isspace a = false -> isspace b = false ->
  strip (a :: s ++ [b]) = a :: s ++ [b].
Proof.
  intros Ha Hb. unfold strip, rstrip. cbn [lstrip]. rewrite Ha.
  assert (R : rev (a :: s ++ [b]) = b :: rev s ++ [a]).
  { cbn [rev]. now rewrite rev_app_distr. }
  rewrite R. cbn [lstrip]. rewrite Hb, <- R. apply rev_involutive.
Qed.

(** The text [convert_monetary_value] hands to [float], and whether it
    negates the result. *)
Lemma convert_monetary_value_steps (c : N) (s : pystr) :
  fst (Master.convert_monetary_value (VStr (c :: s)))
  = let value_str := strip (c :: s) in
    match FloatParse.float_of_str
            (replace (u ",") (u ".")
               (replace (u ".") (u "")
                  (replace (u ")") (u "") (replace (u "(") (u "") value_str))))
    with
    | Some value_float =>
        if contains (u "(") value_str && contains (u ")") value_str
        then fneg value_float else value_float
    | None => FFin 0
    end.
Proof.
  unfold Master.convert_monetary_value. cbv zeta.
  now destruct (FloatParse.float_of_str _).
Qed.

(** X9.  Parentheses negate: wrapping a text that has no parentheses and no
    surrounding blanks in "(" and ")" gives the negated value of the text. *)
Theorem parentheses_negate (s : pystr) :
  strip s = s ->
  contains (u "(") s = false ->
  contains (u ")") s = false ->
  fst (Master.convert_monetary_value (VStr (u "(" ++ s ++ u ")")))
  = fneg (fst (Master.convert_monetary_value (VStr s))).
Proof.
  change (u "(") with [40%N]. change (u ")") with [41%N].
  intros Hs Ho Hc. rewrite contains_code_point in Ho, Hc.
  cbn [app]. rewrite convert_monetary_value_steps. cbv zeta.
  change (u "(") with [40%N]. change (u ")") with [41%N].
  rewrite strip_between by reflexivity.
  rewrite !contains_code_point, !remove_code_point.
  assert (E1 : existsb (N.eqb 40) (40%N :: s ++ [41%N]) = true)
    by reflexivity.
  assert (E2 : existsb (N.eqb 41) (40%N :: s ++ [41%N]) = true).
  { cbn [existsb]. rewrite existsb_app. cbn [existsb].
    now rewrite N.eqb_refl, orb_true_r, orb_true_r. }
  rewrite E1, E2. cbn [andb].
  assert (F : filter (fun c => negb (N.eqb 41 c))
                (filter (fun c => negb (N.eqb 40 c)) (40%N :: s ++ [41%N]))
              = s).
  { change (40%N :: s ++ [41%N]) with ([40%N] ++ s ++ [41%N]).
    rewrite !filter_app, (existsb_none_filter 40 s Ho),
      (existsb_none_filter 41 s Hc).
    change (filter (fun c => negb (N.eqb 41 c))
              (filter (fun c => negb (N.eqb 40 c)) [40%N])) with (@nil N).
    change (filter (fun c => negb (N.eqb 41 c))
              (filter (fun c => negb (N.eqb 40 c)) [41%N])) with (@nil N).
    cbn [app]. apply app_nil_r. }
  rewrite F.
  destruct s as [|c s'].
  - reflexivity.
  - rewrite convert_monetary_value_steps. cbv zeta.
    change (u "(") with [40%N]. change (u ")") with [41%N].
    rewrite Hs, !contains_code_point, !remove_code_point, Ho.
    cbn [andb].
    rewrite (existsb_none_filter 40 _ Ho), (existsb_none_filter 41 _ Hc).
    now destruct (FloatParse.float_of_str _).
Qed.

Lemma parentheses_negate_witness :
  strip (u "1.234,56") = u "1.234,56"
  /\ contains (u "(") (u "1.234,56") = false
  /\ contains (u ")") (u "1.234,56") = false
  /\ fst (Master.convert_monetary_value (VStr (u "(" ++ u "1.234,56" ++ u ")")))
     = fneg (fst (Master.convert_monetary_value (VStr (u "1.234,56")))).
Proof.
  assert (H1 : strip (u "1.234,56") = u "1.234,56") by (vm_compute; reflexivity).
  assert (H2 : contains (u "(") (u "1.234,56") = false)
    by (vm_compute; reflexivity).
  assert (H3 : contains (u ")") (u "1.234,56") = false)
    by (vm_compute; reflexivity).
  do 3 (split; [assumption|]).
  exact (@parentheses_negate (u "1.234,56") H1 H2 H3).
Defined.

(** X10.  Dots never count: a text without blanks is read as the text with
    its dots removed, so "12.50" is read as 1250, not as 12.5. *)
Theorem dots_are_dropped (s : pystr) :
  Forall (fun c => isspace c = false) s ->
  fst (Master.convert_monetary_value (VStr s))
  = fst (Master.convert_monetary_value (VStr (replace (u ".") (u "") s))).
Proof.
  intros Hs. change (u ".") with [46%N]. rewrite remove_code_point.
  set (nd := fun c : N => negb (N.eqb 46 c)).
  assert (Hs' : Forall (fun c => isspace c = false) (filter nd s)).
  { apply Forall_forall. intros c Hc. apply filter_In in Hc as [Hc _].
    rewrite Forall_forall in Hs. now apply Hs. }
  assert (G : forall t,
             Forall (fun c => isspace c = false) t ->
             match t with
             | [] => True
             | _ :: _ =>
                 fst (Master.convert_monetary_value (VStr t))
                 = match FloatParse.float_of_str
                           (replace (u ",") (u ".")
                              (filter nd
                                 (filter (fun c => negb (N.eqb 41 c))
                                    (filter (fun c => negb (N.eqb 40 c)) t))))
                   with
                   | Some value_float =>
                       if existsb (N.eqb 40) t && existsb (N.eqb 41) t
                       then fneg value_float else value_float
                   | None => FFin 0
                   end
             end).
  { intros [|c t] Ht; [exact I|].
    rewrite convert_monetary_value_steps. cbv zeta.
    rewrite (strip_no_space Ht).
    change (u "(") with [40%N]. change (u ")") with [41%N].
    change (u ".") with [46%N].
    now rewrite !contains_code_point, !remove_code_point. }
  pose proof (G s Hs) as Gs. pose proof (G (filter nd s) Hs') as Gs'.
  assert (Same : filter nd
                   (filter (fun c => negb (N.eqb 41 c))
                      (filter (fun c => negb (N.eqb 40 c)) (filter nd s)))
                 = filter nd
                     (filter (fun c => negb (N.eqb 41 c))
                        (filter (fun c => negb (N.eqb 40 c)) s))).
  { rewrite (filter_swap _ nd s), (filter_swap _ nd (filter _ s)).
    apply filter_twice. }
  assert (P40 : existsb (N.eqb 40) (filter nd s) = existsb (N.eqb 40) s).
  { apply existsb_filter_kept. intros a Ha. apply N.eqb_eq in Ha.
    now subst a. }
  assert (P41 : existsb (N.eqb 41) (filter nd s) = existsb (N.eqb 41) s).
  { apply existsb_filter_kept. intros a Ha. apply N.eqb_eq in Ha.
    now subst a. }
  destruct s as [|c s0]; [reflexivity|]. rewrite Gs.
  destruct (filter nd (c :: s0)) as [|c' s'] eqn:E.
  - assert (Z : filter nd
                  (filter (fun c1 => negb (N.eqb 41 c1))
                     (filter (fun c1 => negb (N.eqb 40 c1)) (c :: s0)))
                = []).
    { rewrite (filter_swap nd), (filter_swap nd), E. reflexivity. }
    rewrite Z. reflexivity.
  - rewrite Gs', Same, P40, P41. reflexivity.
Qed.

Lemma dots_are_dropped_witness :
  Forall (fun c => isspace c = false) (u "12.50")
  /\ fst (Master.convert_monetary_value (VStr (u "12.50")))
     = fst (Master.convert_monetary_value
              (VStr (replace (u ".") (u "") (u "12.50")))).
Proof.
  assert (H : Forall (fun c => isspace c = false) (u "12.50")).
  { vm_compute. repeat (apply Forall_cons; [reflexivity|]). apply Forall_nil. }
  split; [assumption|].
  exact (@dots_are_dropped (u "12.50") H).
Defined.

(** What "12.50" is read as. *)
Lemma dot_decimal_misread :
  fst (Master.convert_monetary_value (VStr (u "12.50"))) = FFin (dec 1250 0).
Proof. vm_compute; reflexivity. Qed.

(* ===================================================================== *)
(** * Fund types: what the classifiers can answer                         *)
(* ===================================================================== *)

(** Membership in a list of labels written out. *)
Ltac label_in_list :=
  cbn [In]; repeat (try (left; reflexivity); right); fail.

(** What the pattern table answers, and what is known when it has no
    match. *)
Lemma first_match_patterns (clean_name : pystr) :
  match first_match patterns clean_name with
  | Some fund_type => In fund_type automatic_labels
  | None =>
      contains (u "FIC FIM") clean_name = false
      /\ contains (u "FIM") clean_name = false
  end.
Proof.
  destruct (first_match patterns clean_name) as [t|] eqn:H;
    unfold patterns in H.
  - apply first_match_cons in H as [[_ [= ->]]|[_ H]];
      [unfold automatic_labels; label_in_list|].
    apply first_match_cons in H as [[_ [= ->]]|[_ H]];
      [unfold automatic_labels; label_in_list|].
    apply first_match_cons in H as [[_ [= ->]]|[E3 H]];
      [unfold automatic_labels; label_in_list|].
    apply first_match_cons in H as [[_ [= ->]]|[E4 H]];
      [unfold automatic_labels; label_in_list|].
    cbn [existsb] in E3, E4.
    repeat match goal with
    | E : _ || _ = false |- _ => apply orb_false_iff in E as [? ?]
    end.
    apply first_match_cons in H as [[E5 _]|[_ H]].
    { exfalso. cbn [existsb] in E5.
      repeat match goal with
      | E : _ || _ = true |- _ => apply orb_true_iff in E as [E|E]
      end; try discriminate.
      - apply (contains_app (u "FICFIM") (u " CP")) in E5; congruence.
      - apply (contains_app (u "FIC FIM") (u " CP")) in E5; congruence.
      - apply (contains_app (u "FIC DE FIM") (u " CP")) in E5; congruence. }
    apply first_match_cons in H as [[_ [= ->]]|[E6 H]];
      [unfold automatic_labels; label_in_list|].
    apply first_match_cons in H as [[_ [= ->]]|[E7 H]];
      [unfold automatic_labels; label_in_list|].
    cbn [existsb] in E6, E7.
    repeat match goal with
    | E : _ || _ = false |- _ => apply orb_false_iff in E as [? ?]
    end.
    apply first_match_cons in H as [[E8 _]|[_ H]].
    { exfalso. cbn [existsb] in E8. apply orb_true_iff in E8 as [E8|E8];
        [|discriminate].
      apply (contains_app (u "FIM") (u " CP")) in E8; congruence. }
    apply first_match_cons in H as [[_ [= ->]]|[_ H]];
      [unfold automatic_labels; label_in_list|].
    apply first_match_cons in H as [[E10 _]|[_ H]]; [|discriminate].
    exfalso. cbn [existsb] in E10.
    repeat match goal with
    | E : _ || _ = true |- _ => apply orb_true_iff in E as [E|E]
    end; try discriminate.
    + apply (contains_app (u "FIC") (u "FIA")) in E10; congruence.
    + apply (contains_app (u "FIC") (u " FIA")) in E10; congruence.
    + assert (P : u "FUNDO DE INVESTIMENTO EM COTAS DE FUNDO DE AÇÕES"
                  = u "FUNDO DE INVESTIMENTO EM COTAS"
                      ++ u " DE FUNDO DE AÇÕES") by (vm_compute; reflexivity).
      rewrite P in E10. apply contains_app in E10. congruence.
  - do 2 (apply first_match_cons in H as [[_ H]|[_ H]]; [discriminate|]).
    apply first_match_cons in H as [[_ H]|[E3 H]]; [discriminate|].
    do 2 (apply first_match_cons in H as [[_ H]|[_ H]]; [discriminate|]).
    apply first_match_cons in H as [[_ H]|[E6 H]]; [discriminate|].
    cbn [existsb] in E3, E6.
    apply orb_false_iff in E3 as [E3 _]. apply orb_false_iff in E6 as [E6 _].
    now split.
Qed.

Lemma determine_fund_type_label (fund_name : pyval) :
  In (_determine_fund_type fund_name) automatic_labels.
Proof.
  unfold _determine_fund_type.
  destruct fund_name as [[|c s]| |]; cbv beta iota.
  1, 3, 4: unfold automatic_labels; label_in_list.
  set (clean_name := remove_suffixes (strip (upper (c :: s)))).
  pose proof (first_match_patterns clean_name) as H.
  destruct (first_match patterns clean_name) as [t|]; [exact H|].
  destruct H as [E3 E6].
  destruct (contains (u " EM DC") clean_name || contains (u "EM DIREITOS") clean_name);
    [unfold automatic_labels; label_in_list|].
  destruct (contains (u "FIDC") clean_name);
    [unfold automatic_labels; label_in_list|].
  destruct (contains (u "FIC FIM CP") clean_name) eqn:E5.
  { apply (contains_app (u "FIC FIM") (u " CP")) in E5; congruence. }
  rewrite E3, E6, andb_false_r.
  destruct (contains (u "FIM CP") clean_name) eqn:E8.
  { apply (contains_app (u "FIM") (u " CP")) in E8; congruence. }
  destruct (contains (u "FIC") clean_name);
    unfold automatic_labels; label_in_list.
Qed.

(** X11.  The automatic classifier answers one of eight labels only: "FIDC",
    "FICFIDC", "FIC FIM", "FICFIM", "FIM", "FIC", "FIA" or "Outro".  The
    types "FICFIM CP", "FIM CP" and "FICFIA" of its table are never
    answered, since every pattern of theirs extends a pattern tested
    before. *)
Theorem determine_fund_type_range (fund_name : pyval) :
  In (_determine_fund_type fund_name) automatic_labels
  /\ _determine_fund_type fund_name <> u "FICFIM CP"
  /\ _determine_fund_type fund_name <> u "FIM CP"
  /\ _determine_fund_type fund_name <> u "FICFIA".
Proof.
  pose proof (determine_fund_type_label fund_name) as H.
  split; [exact H|].
  unfold automatic_labels in H. cbn [In] in H.
  repeat split; intros E; rewrite E in H;
    repeat (destruct H as [H|H]; [vm_compute in H; discriminate|]);
    exact H.
Qed.

Lemma determine_fic_type_label (fic_name : pyval) :
  In (_determine_fic_type fic_name) fic_labels.
Proof.
  unfold _determine_fic_type.
  destruct fic_name as [[|c s]| |]; cbv beta iota.
  1, 3, 4: unfold fic_labels; label_in_list.
  repeat match goal with
  | |- In (if ?b then _ else _) _ => destruct b
  end; unfold fic_labels; label_in_list.
Qed.

(** X12.  The resolver for FIC names answers "Outro" for exactly the names
    that, uppercased and stripped, contain none of "FIC", "FIM" and
    "FIA". *)
Theorem determine_fic_type_outro (c : N) (s : pystr) :
  _determine_fic_type (VStr (c :: s)) = u "Outro"
  <-> (contains (u "FIC") (strip (upper (c :: s))) = false
       /\ contains (u "FIM") (strip (upper (c :: s))) = false
       /\ contains (u "FIA") (strip (upper (c :: s))) = false).
Proof.
  unfold _determine_fic_type. cbv beta iota.
  set (fic_name := strip (upper (c :: s))).
  destruct (contains (u "FIC FIM CP") fic_name) eqn:E1.
  { apply (contains_app (u "FIC") (u " FIM CP")) in E1.
    split; [intros X; vm_compute in X; discriminate|].
    intros [? _]; congruence. }
  destruct (contains (u "FIC FIM") fic_name) eqn:E2.
  { apply (contains_app (u "FIC") (u " FIM")) in E2.
    split; [intros X; vm_compute in X; discriminate|].
    intros [? _]; congruence. }
  destruct (contains (u "FIC FIA") fic_name) eqn:E3.
  { apply (contains_app (u "FIC") (u " FIA")) in E3.
    split; [intros X; vm_compute in X; discriminate|].
    intros [? _]; congruence. }
  destruct (contains (u "FIC") fic_name) eqn:E4.
  { split; [intros X; vm_compute in X; discriminate|].
    intros [? _]; congruence. }
  destruct (contains (u "FIM CP") fic_name) eqn:E5.
  { apply (contains_app (u "FIM") (u " CP")) in E5.
    split; [intros X; vm_compute in X; discriminate|].
    intros [_ [? _]]; congruence. }
  destruct (contains (u "FIM") fic_name) eqn:E6.
  { split; [intros X; vm_compute in X; discriminate|].
    intros [_ [? _]]; congruence. }
  destruct (contains (u "FIA") fic_name) eqn:E7.
  { split; [intros X; vm_compute in X; discriminate|].
    intros [_ [_ ?]]; congruence. }
  split; auto.
Qed.

(** X13.  After the standardisation no row is typed "FIC FIM" or "FIC II":
    both labels are rewritten, and no label is rewritten into them. *)
Theorem standardize_removes_variants (x : pyval) :
  standardize x <> VStr (u "FIC FIM") /\ standardize x <> VStr (u "FIC II").
Proof.
  destruct x as [s| |]; [|split; discriminate..].
  unfold standardize.
  destruct (dict_get type_mapping s) as [t|] eqn:E.
  - apply dict_get_In in E.
    pose proof type_mapping_values_fixed as F.
    rewrite Forall_forall in F. specialize (F _ E). cbn [snd] in F.
    split; intros [= ->]; vm_compute in F; discriminate.
  - split; intros [= ->]; vm_compute in E; discriminate.
Qed.

(** Every label the three typing steps can write ends as one of the final
    labels. *)
Lemma standardize_labels (t : pystr) :
  In t (automatic_labels ++ fic_labels ++ map snd manual_mapping) ->
  In (standardize (VStr t)) (map VStr final_labels).
Proof.
  assert (forallb
            (fun t => if in_dec pyval_eq_dec (standardize (VStr t))
                           (map VStr final_labels) then true else false)
            (automatic_labels ++ fic_labels ++ map snd manual_mapping)
          = true) as F by (vm_compute; reflexivity).
  rewrite forallb_forall in F. intros Hin. specialize (F t Hin).
  now destruct (in_dec pyval_eq_dec (standardize (VStr t))
                  (map VStr final_labels)).
Qed.

(* ===================================================================== *)
(** * The manual mapping: when it raises, what it writes                  *)
(* ===================================================================== *)

Lemma manual_lookup_value (table : dict pystr) (fund_name t : pystr) :
  manual_lookup table fund_name = Some t -> In t (map snd table).
Proof.
  induction table as [|[key fund_type] table IH]; cbn [manual_lookup map snd];
    [discriminate|].
  destruct (contains key fund_name).
  - intros [= ->]. now left.
  - intros H. right. now apply IH.
Qed.

Lemma manual_loop_names (pending : list row) (df df' : frame) :
  manual_loop pending df = Ok df' ->
  Forall (fun r => is_str (nome_fundo r) = true) pending.
Proof.
  revert df. induction pending as [|p pending IH]; cbn [manual_loop];
    intros df H; [constructor|].
  destruct (nome_fundo p) as [name| |] eqn:E; try discriminate.
  constructor; [now rewrite E|].
  destruct (manual_lookup manual_mapping (upper name)); eapply IH; eauto.
Qed.

(** X14.  The manual mapping returns a frame exactly when every row typed
    "Outro" has a string for a name: [row['nome_fundo'].upper()] is reached
    for these rows only, so a missing name elsewhere does not stop it. *)
Theorem manual_mapping_returns_iff (df : frame) :
  (exists df', _apply_manual_fund_type_mapping df = Ok df')
  <-> (forall r, In r df -> is_outro r = true -> is_str (nome_fundo r) = true).
Proof.
  unfold _apply_manual_fund_type_mapping. split.
  - intros [df' H] r Hin Ho. apply manual_loop_names in H.
    rewrite Forall_forall in H. apply H. apply filter_In. now split.
  - intros H. apply manual_loop_total. apply Forall_forall.
    intros r Hr. apply filter_In in Hr as [Hin Ho]. now apply H.
Qed.

Lemma outro_rows_labels_distinct (df : frame) :
  NoDup (map idx df) -> NoDup (map idx (filter is_outro df)).
Proof.
  induction df as [|r df IH]; intros ND; [exact ND|].
  cbn [map filter] in *. apply NoDup_cons_iff in ND as [Hfresh ND].
  destruct (is_outro r); [|now apply IH].
  cbn [map]. apply NoDup_cons; [|now apply IH].
  contradict Hfresh. apply in_map_iff in Hfresh as [r' [E Hr']].
  apply filter_In in Hr' as [Hr' _]. rewrite <- E. now apply in_map.
Qed.

Lemma manual_loop_retypes (pending : list row) (df df' : frame)
    (pos : nat) (r : row) (name : pystr) :
  NoDup (map idx pending) ->
  manual_loop pending df = Ok df' ->
  In r pending ->
  nth_error df pos = Some r ->
  nome_fundo r = VStr name ->
  nth_error df' pos
  = Some match manual_lookup manual_mapping (upper name) with
         | Some fund_type => set_TpFundo (VStr fund_type) r
         | None => r
         end.
Proof.
  revert df. induction pending as [|p pending IH]; intros df ND H Hin E Hname;
    [contradiction|].
  cbn [map] in ND. apply NoDup_cons_iff in ND as [Hfresh ND].
  cbn [manual_loop] in H. destruct Hin as [->|Hin].
  - rewrite Hname in H.
    assert (Hother : forall q, In q pending -> idx q <> idx r).
    { intros q Hq Eq. apply Hfresh. rewrite <- Eq. now apply in_map. }
    destruct (manual_lookup manual_mapping (upper name)) as [t|].
    + apply (manual_loop_frame _ _ pos H).
      * exact Hother.
      * apply loc_set_touched; [now left|assumption].
    + now apply (manual_loop_frame _ _ pos H).
  - assert (Hp : idx p <> idx r).
    { intros Eq. apply Hfresh. rewrite Eq. now apply in_map. }
    destruct (nome_fundo p) as [pname| |]; try discriminate.
    destruct (manual_lookup manual_mapping (upper pname)) as [t|].
    + apply (IH _ ND H Hin); [|assumption].
      apply loc_set_untouched; [|assumption].
      cbn [In]. intros [X|[]]. now apply Hp.
    + now apply (IH _ ND H Hin).
Qed.

(** X15.  On a frame with distinct index labels, a row typed "Outro" gets
    the type of the first key of the manual mapping that occurs in its
    uppercased name, and stays as it is when no key occurs; no other column
    of the row changes. *)
Theorem manual_mapping_retypes_outro (df df' : frame) (pos : nat) (r : row)
    (name : pystr) :
  NoDup (map idx df) ->
  _apply_manual_fund_type_mapping df = Ok df' ->
  nth_error df pos = Some r ->
  is_outro r = true ->
  nome_fundo r = VStr name ->
  nth_error df' pos
  = Some match manual_lookup manual_mapping (upper name) with
         | Some fund_type => set_TpFundo (VStr fund_type) r
         | None => r
         end.
Proof.
  unfold _apply_manual_fund_type_mapping. intros ND H E Ho Hname.
  apply manual_loop_retypes with (pending := filter is_outro df) (df := df);
    try assumption.
  - now apply outro_rows_labels_distinct.
  - apply filter_In. split; [|assumption]. eapply nth_error_In; eauto.
Qed.

(** The row "VISHNU FUNDO X", typed "Outro", gets the type "FIDC" of the key
    "VISHNU FUNDO". *)
Lemma manual_mapping_retypes_outro_witness :
  NoDup (map idx manual_rows)
  /\ _apply_manual_fund_type_mapping manual_rows = Ok manual_rows_after
  /\ nth_error manual_rows_after 1
     = Some match manual_lookup manual_mapping (upper (u "VISHNU FUNDO X")) with
            | Some fund_type =>
                set_TpFundo (VStr fund_type)
                  (typed_row 1 "VISHNU FUNDO X" "Outro" "VISHNU FUNDO X")
            | None => typed_row 1 "VISHNU FUNDO X" "Outro" "VISHNU FUNDO X"
            end.
Proof.
  assert (H1 : NoDup (map idx manual_rows)) by nodup_labels.
  assert (H2 : _apply_manual_fund_type_mapping manual_rows = Ok manual_rows_after)
    by (vm_compute; reflexivity).
  assert (H3 : nth_error manual_rows 1
               = Some (typed_row 1 "VISHNU FUNDO X" "Outro" "VISHNU FUNDO X"))
    by reflexivity.
  assert (H4 : is_outro (typed_row 1 "VISHNU FUNDO X" "Outro" "VISHNU FUNDO X")
               = true) by (vm_compute; reflexivity).
  assert (H5 : nome_fundo (typed_row 1 "VISHNU FUNDO X" "Outro" "VISHNU FUNDO X")
               = VStr (u "VISHNU FUNDO X")) by (vm_compute; reflexivity).
  do 2 (split; [assumption|]).
  exact (@manual_mapping_retypes_outro manual_rows manual_rows_after 1 _ _
           H1 H2 H3 H4 H5).
Defined.

(* ===================================================================== *)
(** * The typing steps together                                           *)
(* ===================================================================== *)

Lemma assign_loc_set (fic : pystr) (ls : list Z) (df : frame) :
  assign fic ls df = loc_set ls (assigned_row fic) df.
Proof.
  unfold assign, loc_set, assigned_row. rewrite map_map. apply map_ext.
  intros r. destruct (existsb (Z.eqb (idx r)) ls) eqn:E.
  - cbn [idx set_nmcategorizado]. now rewrite E.
  - now rewrite E.
Qed.

Section RowInvariant.

Context {RS : RandomSource}.

(** A property of rows that every assignment of the three steps keeps. *)
Variable P : row -> Prop.

Lemma loc_set_keeps (labels : list Z) (f : row -> row) (df : frame) :
  (forall r, P r -> P (f r)) -> Forall P df -> Forall P (loc_set labels f df).
Proof.
  intros Hf F. unfold loc_set. apply Forall_map.
  apply Forall_impl with (2 := F). intros r Hr.
  destruct (existsb (Z.eqb (idx r)) labels); auto.
Qed.

Lemma apply_handed_keeps (pl : list (pystr * list Z)) (df : frame) :
  (forall fic r, P r -> P (assigned_row fic r)) ->
  Forall P df -> Forall P (apply_handed pl df).
Proof.
  intros Hf. revert df. induction pl as [|a pl IH]; intros df F; [exact F|].
  change (apply_handed (a :: pl) df)
    with (apply_handed pl (assign (fst a) (snd a) df)).
  apply IH. rewrite assign_loc_set. apply loc_set_keeps; auto.
Qed.

Lemma fold_process_fidc_keeps (fidc_to_fics : dict (list pystr))
    (df : frame) (g : rng_state) :
  (forall fic r, P r -> P (assigned_row fic r)) ->
  Forall P df ->
  Forall P (fst (fold_left process_fidc fidc_to_fics (df, g))).
Proof.
  intros Hf. revert df g.
  induction fidc_to_fics as [|[fidc_name fics_list] rest IH];
    intros df g F; [exact F|].
  cbn [fold_left].
  rewrite (surjective_pairing (process_fidc (df, g) (fidc_name, fics_list))).
  apply IH. rewrite process_fidc_apply_handed. now apply apply_handed_keeps.
Qed.

Lemma categorize_funds_keeps (g : rng_state)
    (fidc_to_fics : dict (list pystr)) (df df' : frame) :
  (forall v r, P r -> P (set_nmcategorizado v r)) ->
  (forall fic r, P r -> P (assigned_row fic r)) ->
  fst (_categorize_funds g fidc_to_fics df) = Ok df' ->
  Forall P df -> Forall P df'.
Proof.
  intros Hn Hf. unfold _categorize_funds.
  destruct (forallb is_str (firstn 5 (unique (map nome_fundo df))));
    [|discriminate].
  rewrite fst_ok_pair. intros [= <-] F.
  apply fold_process_fidc_keeps; [assumption|].
  apply Forall_map. apply Forall_impl with (2 := F). auto.
Qed.

Lemma manual_loop_keeps (pending : list row) (df df' : frame) :
  (forall t r, In t (map snd manual_mapping) -> P r ->
     P (set_TpFundo (VStr t) r)) ->
  manual_loop pending df = Ok df' ->
  Forall P df -> Forall P df'.
Proof.
  intros Hf. revert df. induction pending as [|p pending IH];
    cbn [manual_loop]; intros df H F.
  - now injection H as <-.
  - destruct (nome_fundo p) as [name| |]; try discriminate.
    destruct (manual_lookup manual_mapping (upper name)) as [t|] eqn:E.
    + apply (IH _ H). apply loc_set_keeps; [|assumption].
      intros r. apply Hf. now apply manual_lookup_value in E.
    + now apply (IH _ H).
Qed.

End RowInvariant.

(** X16.  Whatever the rows, the mapping and the random source, when the
    typing steps of [transform] return a frame, every row of it carries one
    of ten labels: "FIDC", "FICFIDC", "FICFIM", "FICFIM CP", "FIM",
    "FIM CP", "FIC", "FIA", "FICFIA" or "Outro". *)
Theorem transform_types_are_final (RS : RandomSource) (g : rng_state)
    (fidc_to_fics : dict (list pystr)) (df df' : frame) :
  fst (transform_fund_columns g fidc_to_fics df) = Ok df' ->
  Forall (fun r => In (TpFundo r) (map VStr final_labels)) df'.
Proof.
  set (reach := automatic_labels ++ fic_labels ++ map snd manual_mapping).
  set (P := fun r => exists t, TpFundo r = VStr t /\ In t reach).
  unfold transform_fund_columns.
  set (df0 := map (fun r => set_TpFundo (VStr (_determine_fund_type (nome_fundo r))) r) df).
  assert (F0 : Forall P df0).
  { apply Forall_map, Forall_forall. intros r _.
    exists (_determine_fund_type (nome_fundo r)). split; [reflexivity|].
    apply in_or_app. left. apply determine_fund_type_label. }
  destruct (_categorize_funds g fidc_to_fics df0) as [[df1|e] g'] eqn:E1;
    [|discriminate].
  assert (F1 : Forall P df1).
  { apply (@categorize_funds_keeps RS P g fidc_to_fics df0 df1).
    - intros v r Hr. exact Hr.
    - intros fic r _. exists (_determine_fic_type (VStr fic)).
      split; [reflexivity|].
      apply in_or_app. right. apply in_or_app. left.
      apply determine_fic_type_label.
    - now rewrite E1.
    - exact F0. }
  destruct (_apply_manual_fund_type_mapping df1) as [df2|e] eqn:E2;
    [|discriminate].
  assert (F2 : Forall P df2).
  { apply (@manual_loop_keeps P (filter is_outro df1) df1 df2).
    - intros t r Ht _. exists t. split; [reflexivity|].
      apply in_or_app. right. apply in_or_app. now right.
    - exact E2.
    - exact F1. }
  cbn [fst]. intros [= <-]. unfold _standardize_fund_types.
  apply Forall_map. apply Forall_impl with (2 := F2).
  intros r [t [Et Ht]]. cbn [TpFundo set_TpFundo]. rewrite Et.
  now apply standardize_labels.
Qed.

(** The three "ALFA FIDC" rows end as "FIC", "FIDC" and "FIC". *)
Lemma transform_types_are_final_witness :
  fst (transform_fund_columns (seed 0) alfa_mapping alfa_rows)
  = Ok alfa_rows_after
  /\ Forall (fun r => In (TpFundo r) (map VStr final_labels)) alfa_rows_after.
Proof.
  assert (H : fst (transform_fund_columns (seed 0) alfa_mapping alfa_rows)
              = Ok alfa_rows_after) by (vm_compute; reflexivity).
  split; [assumption|].
  exact (@transform_types_are_final mersenne (seed 0) alfa_mapping alfa_rows
           alfa_rows_after H).
Defined.

(* ===================================================================== *)
(** * Redistribution: where a row can end                                 *)
(* ===================================================================== *)

Lemma assignments_fics (fics : list pystr) (i rpf : nat) (dist : list Z)
    (fic : pystr) (ls : list Z) :
  In (fic, ls) (assignments fics i rpf dist) -> In fic fics.
Proof.
  revert i. induction fics as [|f fics IH]; intros i; cbn [assignments];
    [contradiction|].
  destruct (List.length dist <=? i * rpf)%nat; [contradiction|].
  destruct (slice dist (i * rpf)
              (Nat.min ((i + 1) * rpf) (List.length dist))) as [|z zs].
  - intros H. right. exact (IH _ H).
  - intros [[= <- _]|H]; [now left|]. right. exact (IH _ H).
Qed.

Lemma assigned_row_twice (fic fic' : pystr) (r : row) :
  assigned_row fic' (assigned_row fic r) = assigned_row fic' r.
Proof. reflexivity. Qed.

Lemma assigned_row_own (fic : pystr) (v : pyval) (r : row) :
  assigned_row fic (set_nmcategorizado v r) = assigned_row fic r.
Proof. reflexivity. Qed.

Section Destination.

Context {RS : RandomSource}.

Lemma handed_fics (df : frame) (fidc_name : pystr) (fics_list : list pystr)
    (fic : pystr) (ls : list Z) :
  In (fic, ls) (handed (outcome_of df fidc_name fics_list)) ->
  In fic fics_list.
Proof.
  unfold outcome_of.
  destruct (processed fics_list
              (List.length (map idx (fidc_rows fidc_name df))));
    cbn [handed]; [apply assignments_fics|contradiction].
Qed.

(** One entry of the mapping leaves a row as it is or hands it to one of the
    entry's FICs, and the latter only when the row's name matches the
    entry's FIDC. *)
Lemma process_fidc_row (df : frame) (g : rng_state) (fidc_name : pystr)
    (fics_list : list pystr) (pos : nat) (r : row) :
  NoDup (map idx df) ->
  nth_error df pos = Some r ->
  nth_error (fst (process_fidc (df, g) (fidc_name, fics_list))) pos = Some r
  \/ exists fic,
       In fic fics_list
       /\ fidc_match fidc_name (nome_fundo r) = true
       /\ nth_error (fst (process_fidc (df, g) (fidc_name, fics_list))) pos
          = Some (assigned_row fic r).
Proof.
  intros ND E. rewrite process_fidc_apply_handed.
  pose proof (outcome_perm df fidc_name fics_list) as Pm.
  set (o := outcome_of df fidc_name fics_list) in *.
  destruct (in_dec Z.eq_dec (idx r) (handed_labels o)) as [Hin|Hn].
  - right. pose proof Hin as Hin'. unfold handed_labels in Hin'.
    apply in_concat in Hin' as [ls [Hls Hl]].
    apply in_map_iff in Hls as [[fic ls'] [Els Hpl]]. cbn [snd] in Els.
    subst ls'. exists fic. split; [exact (@handed_fics df fidc_name fics_list fic ls Hpl)|]. split.
    + assert (In (idx r) (map idx (fidc_rows fidc_name df))) as X.
      { apply (Permutation_in _ (Permutation_sym Pm)).
        apply in_or_app. now right. }
      apply in_map_iff in X as [r0 [E0 H0]].
      unfold fidc_rows in H0. apply filter_In in H0 as [H0 M0].
      assert (r0 = r) as <-; [|exact M0].
      apply (label_determines_row df); auto. eapply nth_error_In; eauto.
    + apply apply_handed_assigned with (ls := ls); auto.
      assert (NDo : NoDup (stay o ++ handed_labels o)).
      { apply (Permutation_NoDup Pm). now apply fidc_rows_labels_distinct. }
      now apply NoDup_app_remove_l in NDo.
  - left. now apply apply_handed_untouched.
Qed.

Lemma fold_process_fidc_row (fidc_to_fics : dict (list pystr)) (df : frame)
    (g : rng_state) (pos : nat) (r : row) :
  NoDup (map idx df) ->
  nth_error df pos = Some r ->
  nth_error (fst (fold_left process_fidc fidc_to_fics (df, g))) pos = Some r
  \/ exists fidc_name fics_list fic,
       In (fidc_name, fics_list) fidc_to_fics
       /\ In fic fics_list
       /\ fidc_match fidc_name (nome_fundo r) = true
       /\ nth_error (fst (fold_left process_fidc fidc_to_fics (df, g))) pos
          = Some (assigned_row fic r).
Proof.
  revert df g r.
  induction fidc_to_fics as [|[fidc_name fics_list] rest IH];
    intros df g r ND E; [now left|].
  cbn [fold_left].
  rewrite (surjective_pairing (process_fidc (df, g) (fidc_name, fics_list))).
  set (df1 := fst (process_fidc (df, g) (fidc_name, fics_list))).
  set (g1 := snd (process_fidc (df, g) (fidc_name, fics_list))).
  assert (ND1 : NoDup (map idx df1)).
  { unfold df1. rewrite process_fidc_apply_handed.
    rewrite (@apply_handed_column _ idx
               (fun _ _ => eq_refl) (fun _ _ => eq_refl)).
    exact ND. }
  destruct (@process_fidc_row df g fidc_name fics_list pos r ND E)
    as [E1|[fic [Hfic [Hm E1]]]]; fold df1 in E1.
  - destruct (IH df1 g1 r ND1 E1) as [En|[f' [fs' [fic' [H1 [H2 [H3 En]]]]]]].
    + now left.
    + right. exists f', fs', fic'. repeat split; auto. now right.
  - destruct (IH df1 g1 _ ND1 E1) as [En|[f' [fs' [fic' [H1 [H2 [H3 En]]]]]]].
    + right. exists fidc_name, fics_list, fic. repeat split; auto. now left.
    + right. exists f', fs', fic'. repeat split; auto. now right.
Qed.

End Destination.

(** X17.  On a frame with distinct index labels, every row leaves
    [_categorize_funds] in one of two states: its categorised name is its
    own fund name and its type is untouched, or it carries the name and the
    type of a FIC listed in the mapping under a FIDC whose normalised name
    contains, or is contained in, the row's normalised fund name.  A row is
    never given to a FIC of an unrelated FIDC. *)
Theorem categorize_funds_row_destination (RS : RandomSource) (g : rng_state)
    (fidc_to_fics : dict (list pystr)) (df df' : frame) (pos : nat) (r : row) :
  NoDup (map idx df) ->
  fst (_categorize_funds g fidc_to_fics df) = Ok df' ->
  nth_error df pos = Some r ->
  nth_error df' pos = Some (set_nmcategorizado (nome_fundo r) r)
  \/ exists fidc_name fics_list fic,
       In (fidc_name, fics_list) fidc_to_fics
       /\ In fic fics_list
       /\ fidc_match fidc_name (nome_fundo r) = true
       /\ nth_error df' pos = Some (assigned_row fic r).
Proof.
  intros ND H E. unfold _categorize_funds in H.
  destruct (forallb is_str (firstn 5 (unique (map nome_fundo df))));
    [|discriminate].
  rewrite fst_ok_pair in H. injection H as <-.
  set (df0 := map (fun r => set_nmcategorizado (nome_fundo r) r) df).
  assert (ND0 : NoDup (map idx df0)).
  { unfold df0. rewrite map_map. exact ND. }
  assert (E0 : nth_error df0 pos = Some (set_nmcategorizado (nome_fundo r) r)).
  { unfold df0. now rewrite nth_error_map, E. }
  destruct (@fold_process_fidc_row RS fidc_to_fics df0 g pos _ ND0 E0)
    as [En|[f [fs [fic [H1 [H2 [H3 En]]]]]]].
  - now left.
  - right. exists f, fs, fic. repeat split; auto.
Qed.

(** Row 0 of the three "ALFA FIDC" rows goes to "ALFA FIC". *)
Lemma categorize_funds_row_destination_witness :
  NoDup (map idx alfa_rows)
  /\ fst (_categorize_funds (seed 0) alfa_mapping alfa_rows) = Ok alfa_rows_after
  /\ (nth_error alfa_rows_after 0
      = Some (set_nmcategorizado (VStr (u "ALFA FIDC"))
                (typed_row 0 "ALFA FIDC" "FIDC" "ALFA FIDC"))
      \/ exists fidc_name fics_list fic,
           In (fidc_name, fics_list) alfa_mapping
           /\ In fic fics_list
           /\ fidc_match fidc_name (VStr (u "ALFA FIDC")) = true
           /\ nth_error alfa_rows_after 0
              = Some (assigned_row fic
                        (typed_row 0 "ALFA FIDC" "FIDC" "ALFA FIDC"))).
Proof.
  assert (H1 : NoDup (map idx alfa_rows)) by nodup_labels.
  assert (H2 : fst (_categorize_funds (seed 0) alfa_mapping alfa_rows)
               = Ok alfa_rows_after) by (vm_compute; reflexivity).
  assert (H3 : nth_error alfa_rows 0
               = Some (typed_row 0 "ALFA FIDC" "FIDC" "ALFA FIDC"))
    by reflexivity.
  do 2 (split; [assumption|]).
  exact (@categorize_funds_row_destination mersenne (seed 0) alfa_mapping
           alfa_rows alfa_rows_after 0 _ H1 H2 H3).
Defined.

(** X18.  How many rows one entry hands over.  With N selected rows and k
    FICs, [D = N - max(N // 2, 1)] rows are up for distribution, each FIC is
    offered [max(1, D // k)] of them, and [min(k * max(1, D // k), D)] rows
    change hands; an entry that is skipped (no FIC, a first FIC "-", no row,
    or a single row) hands over none. *)
Theorem handed_count_formula (RS : RandomSource) (df : frame)
    (fidc_name : pystr) (fics_list : list pystr) :
  handed_count (outcome_of df fidc_name fics_list)
  = let total_rows := List.length (fidc_rows fidc_name df) in
    let num_fics := List.length fics_list in
    let rows_to_distribute := total_rows - Nat.max (total_rows / 2) 1 in
    if processed fics_list total_rows
    then Nat.min (num_fics * Nat.max 1 (rows_to_distribute / num_fics))
           rows_to_distribute
    else 0.
Proof.
  rewrite handed_count_length. unfold handed_labels, outcome_of.
  rewrite length_map. cbv zeta.
  destruct (processed fics_list (List.length (fidc_rows fidc_name df)));
    cbn [handed]; [|reflexivity].
  rewrite assignments_labels by apply split_rows_per_fic.
  cbn [Nat.mul skipn]. rewrite length_firstn.
  unfold split_rows.
  pose proof (shuffle_perm (seed 42) (map idx (fidc_rows fidc_name df))) as Pm.
  destruct (shuffle (seed 42) (map idx (fidc_rows fidc_name df))) as [sh g].
  cbn [fst rows_per_fic distribute_indices] in *.
  rewrite length_skipn, (Permutation_length Pm), !length_map.
  reflexivity.
Qed.

(** The redistribution of the three "ALFA FIDC" rows keeps labels, names
    and amounts. *)
Lemma categorize_funds_preserves_rows_witness :
  fst (_categorize_funds (seed 0) alfa_mapping alfa_rows) = Ok alfa_rows_after
  /\ (map idx alfa_rows_after = map idx alfa_rows
      /\ map nome_fundo alfa_rows_after = map nome_fundo alfa_rows
      /\ map lancamento alfa_rows_after = map lancamento alfa_rows
      /\ map valor alfa_rows_after = map valor alfa_rows
      /\ map tipo_lancamento alfa_rows_after = map tipo_lancamento alfa_rows
      /\ map categoria alfa_rows_after = map categoria alfa_rows).
Proof.
  assert (H : fst (_categorize_funds (seed 0) alfa_mapping alfa_rows)
              = Ok alfa_rows_after) by (vm_compute; reflexivity).
  split; [assumption|].
  exact (@categorize_funds_preserves_rows mersenne (seed 0) alfa_mapping
           alfa_rows alfa_rows_after H).
Defined.

(** The rows of the five-row example all have names. *)
Lemma categorize_funds_returns_witness :
  (forall r, In r beta_rows -> is_str (nome_fundo r) = true)
  /\ exists df',
       fst (_categorize_funds (seed 0) [(u "BETA FIDC", beta_fics)] beta_rows)
       = Ok df'.
Proof.
  assert (H : forall r, In r beta_rows -> is_str (nome_fundo r) = true).
  { intros r Hr. unfold beta_rows in Hr. cbn [In] in Hr.
    repeat (destruct Hr as [<-|Hr]; [reflexivity|]). contradiction. }
  split; [assumption|].
  exact (@categorize_funds_returns mersenne (seed 0)
           [(u "BETA FIDC", beta_fics)] beta_rows H).
Defined.

(* ===================================================================== *)
(** * The categorised fund name (config_loader.py)                        *)
(* ===================================================================== *)

Section DictFacts.

Variable V : Type.

Lemma dict_set_entry (d : dict V) (k k' : pystr) (v v' : V) :
  In (k', v') (dict_set d k v) -> (k' = k /\ v' = v) \/ In (k', v') d.
Proof.
  induction d as [|[k0 v0] d IH]; cbn [dict_set].
  - intros [[= <- <-]|[]]. now left.
  - unfold PyStr.eqb. destruct (list_eq_dec N.eq_dec k0 k) as [->|_].
    + intros [[= <- <-]|H]; [now left|]. right. now right.
    + intros [H|H]; [right; now left|].
      destruct (IH H) as [X|X]; [now left|]. right. now right.
Qed.

Lemma dict_set_key (d : dict V) (k : pystr) (v : V) :
  exists v', In (k, v') (dict_set d k v).
Proof.
  induction d as [|[k0 v0] d IH]; cbn [dict_set].
  - exists v. now left.
  - unfold PyStr.eqb. destruct (list_eq_dec N.eq_dec k0 k) as [->|_].
    + exists v. now left.
    + destruct IH as [v' H]. exists v'. now right.
Qed.

Lemma dict_set_keeps_keys (d : dict V) (k k' : pystr) (v v' : V) :
  In (k', v') (dict_set d k v) \/ In (k', v') d ->
  exists w, In (k', w) (dict_set d k v).
Proof.
  intros [H|H]; [eauto|].
  induction d as [|[k0 v0] d IH]; [contradiction|]. cbn [dict_set].
  unfold PyStr.eqb. destruct (list_eq_dec N.eq_dec k0 k) as [->|_].
  - destruct H as [[= -> ->]|H].
    + exists v. now left.
    + exists v'. now right.
  - destruct H as [[= -> ->]|H].
    + exists v'. now left.
    + destruct (IH H) as [w Hw]. exists w. now right.
Qed.

Lemma normalize_keys_from (d acc : dict V) (k' : pystr) (v : V) :
  In (k', v)
    (fold_left (fun acc kv =>
                  dict_set acc (normalize_string (VStr (fst kv))) (snd kv))
       d acc) ->
  In (k', v) acc
  \/ exists k, In (k, v) d /\ k' = normalize_string (VStr k).
Proof.
  revert acc. induction d as [|[k0 v0] d IH]; intros acc; cbn [fold_left];
    [now left|].
  intros H. destruct (IH _ H) as [X|[k [X1 X2]]].
  - cbn [fst snd] in X. apply dict_set_entry in X as [[-> ->]|X].
    + right. exists k0. split; [now left|reflexivity].
    + now left.
  - right. exists k. split; [now right|assumption].
Qed.

Lemma normalize_keys_all (d acc : dict V) (k : pystr) (v : V) :
  In (k, v) d ->
  exists w,
    In (normalize_string (VStr k), w)
      (fold_left (fun acc kv =>
                    dict_set acc (normalize_string (VStr (fst kv))) (snd kv))
         d acc).
Proof.
  assert (K : forall (d : dict V) acc k' w,
            In (k', w) acc ->
            exists w',
              In (k', w')
                (fold_left (fun acc kv =>
                     dict_set acc (normalize_string (VStr (fst kv))) (snd kv))
                   d acc)).
  { clear. induction d as [|[k0 v0] d IH]; intros acc k' w H; cbn [fold_left];
      [eauto|].
    destruct (@dict_set_keeps_keys acc (normalize_string (VStr k0)) k' v0 w
                (or_intror H)) as [w1 H1].
    exact (IH _ _ _ H1). }
  revert acc. induction d as [|[k0 v0] d IH]; intros acc H; [contradiction|].
  cbn [fold_left fst snd]. destruct H as [[= -> ->]|H].
  - destruct (dict_set_key acc (normalize_string (VStr k)) v) as [w Hw].
    exact (K _ _ _ _ Hw).
  - now apply IH.
Qed.

Lemma first_contained_some (d : dict V) (norm_name : pystr) (v : V) :
  Config.first_contained d norm_name = Some v ->
  exists k, In (k, v) d /\ contains k norm_name = true.
Proof.
  induction d as [|[k0 v0] d IH]; cbn [Config.first_contained];
    [discriminate|].
  destruct (contains k0 norm_name) eqn:E.
  - intros [= ->]. exists k0. split; [now left|assumption].
  - intros H. destruct (IH H) as [k [X1 X2]]. exists k. split; [now right|auto].
Qed.

Lemma first_contained_none (d : dict V) (norm_name k : pystr) (v : V) :
  Config.first_contained d norm_name = None ->
  In (k, v) d -> contains k norm_name = false.
Proof.
  induction d as [|[k0 v0] d IH]; cbn [Config.first_contained];
    [contradiction|].
  destruct (contains k0 norm_name) eqn:E; [discriminate|].
  intros H [[= -> ->]|X]; auto.
Qed.

End DictFacts.

(** X19.  For a non-empty name, [get_categorized_fund_name] answers in one
    of two ways.  When no FIC key of [fic_to_fidc], normalised, occurs in
    the normalised name, it returns the name as given.  Otherwise it returns
    the parent recorded for a FIC key that does occur in the name. *)
Theorem categorized_fund_name_origin (fidc_to_fics : dict (list pystr))
    (fic_to_fidc : dict pystr) (c : N) (s : pystr) :
  let fund_name := VStr (c :: s) in
  (Config.get_categorized_fund_name fidc_to_fics fic_to_fidc fund_name
   = fund_name
   /\ forall fic fidc,
        In (fic, fidc) fic_to_fidc ->
        contains (normalize_string (VStr fic)) (normalize_string fund_name)
        = false)
  \/ exists fic fidc,
       In (fic, fidc) fic_to_fidc
       /\ contains (normalize_string (VStr fic)) (normalize_string fund_name)
          = true
       /\ Config.get_categorized_fund_name fidc_to_fics fic_to_fidc fund_name
          = VStr fidc.
Proof.
  cbv zeta. unfold Config.get_categorized_fund_name.
  set (norm_name := normalize_string (VStr (c :: s))).
  destruct (dict_get (Config.normalize_keys fic_to_fidc) norm_name)
    as [fidc|] eqn:E1.
  { right. apply dict_get_In in E1. unfold Config.normalize_keys in E1.
    apply normalize_keys_from in E1 as [[]|[fic [H1 H2]]].
    exists fic, fidc. split; [assumption|]. split; [|reflexivity].
    rewrite <- H2. apply contains_refl. }
  destruct (Config.first_contained (Config.normalize_keys fic_to_fidc) norm_name)
    as [fidc|] eqn:E2.
  { right. apply first_contained_some in E2 as [k [H1 H2]].
    unfold Config.normalize_keys in H1.
    apply normalize_keys_from in H1 as [[]|[fic [H1 H3]]].
    exists fic, fidc. split; [assumption|]. split; [|reflexivity].
    now rewrite <- H3. }
  left. split.
  - destruct (dict_get (Config.normalize_keys fidc_to_fics) norm_name);
      [reflexivity|].
    now destruct (Config.first_contained
                    (Config.normalize_keys fidc_to_fics) norm_name).
  - intros fic fidc Hin.
    destruct (@normalize_keys_all _ fic_to_fidc [] fic fidc Hin) as [w Hw].
    exact (first_contained_none _ _ _ _ E2 Hw).
Qed.

(* ===================================================================== *)
(** * The mapping built from the CSV file (csv_to_json.py)                *)
(* ===================================================================== *)

Lemma collect_fics_extends (cells : list pystr) (fidc : pystr)
    (fics : list pystr) (d : dict pystr) :
  exists added,
    fst (CsvToJson.collect_fics cells fidc fics d) = fics ++ added.
Proof.
  revert fics d. induction cells as [|cell cells IH]; intros fics d;
    cbn [CsvToJson.collect_fics].
  - exists []. cbn [fst]. now rewrite app_nil_r.
  - destruct cell as [|a l]; [apply IH|].
    destruct (strip (a :: l)) as [|b l']; [apply IH|].
    destruct (IH (fics ++ [upper (b :: l')])
                (dict_set d (upper (b :: l')) fidc)) as [added E].
    exists (upper (b :: l') :: added). rewrite E.
    now rewrite <- app_assoc.
Qed.

Lemma collect_fics_keeps_keys (cells : list pystr) (fidc : pystr)
    (fics : list pystr) (d : dict pystr) (k v : pystr) :
  In (k, v) d ->
  exists w, In (k, w) (snd (CsvToJson.collect_fics cells fidc fics d)).
Proof.
  revert fics d v. induction cells as [|cell cells IH]; intros fics d v H;
    cbn [CsvToJson.collect_fics].
  - eauto.
  - destruct cell as [|a l]; [now apply IH with (v := v)|].
    destruct (strip (a :: l)) as [|b l']; [now apply IH with (v := v)|].
    destruct (@dict_set_keeps_keys _ d (upper (b :: l')) k fidc v
                (or_intror H)) as [w Hw].
    now apply IH with (v := w).
Qed.

Lemma collect_fics_listed (cells : list pystr) (fidc : pystr)
    (fics : list pystr) (d : dict pystr) :
  (forall fic, In fic fics -> exists f, In (fic, f) d) ->
  forall fic,
    In fic (fst (CsvToJson.collect_fics cells fidc fics d)) ->
    exists f, In (fic, f) (snd (CsvToJson.collect_fics cells fidc fics d)).
Proof.
  revert fics d. induction cells as [|cell cells IH]; intros fics d H;
    cbn [CsvToJson.collect_fics].
  - exact H.
  - destruct cell as [|a l]; [now apply IH|].
    destruct (strip (a :: l)) as [|b l']; [now apply IH|].
    apply IH. intros fic Hfic. apply in_app_or in Hfic as [Hfic|[<-|[]]].
    + destruct (H _ Hfic) as [f Hf].
      exact (@dict_set_keeps_keys _ d (upper (b :: l')) fic fidc f
               (or_intror Hf)).
    + apply dict_set_key.
Qed.

Lemma collect_fics_values (cells : list pystr) (fidc : pystr)
    (fics : list pystr) (d : dict pystr) (fic f : pystr) :
  In (fic, f) (snd (CsvToJson.collect_fics cells fidc fics d)) ->
  In (fic, f) d
  \/ (f = fidc /\ fst (CsvToJson.collect_fics cells fidc fics d) <> []).
Proof.
  revert fics d. induction cells as [|cell cells IH]; intros fics d;
    cbn [CsvToJson.collect_fics].
  - now left.
  - destruct cell as [|a l]; [apply IH|].
    destruct (strip (a :: l)) as [|b l']; [apply IH|].
    intros H. destruct (IH _ _ H) as [X|X]; [|now right].
    apply dict_set_entry in X as [[_ ->]|X]; [|now left].
    right. split; [reflexivity|].
    destruct (collect_fics_extends cells fidc (fics ++ [upper (b :: l')])
                (dict_set d (upper (b :: l')) fidc)) as [added ->].
    intros Z. apply app_eq_nil in Z as [Z _].
    apply app_eq_nil in Z as [_ Z]. discriminate.
Qed.

(** One row of the file keeps the two dictionaries consistent. *)
Lemma add_row_consistent (m : CsvToJson.mapping) (row : CsvToJson.csv_row) :
  ((forall fidc fics,
      In (fidc, fics) (CsvToJson.fidc_to_fics m) ->
      fics <> []
      /\ forall fic, In fic fics ->
           exists f, In (fic, f) (CsvToJson.fic_to_fidc m))
   /\ (forall fic fidc,
         In (fic, fidc) (CsvToJson.fic_to_fidc m) ->
         exists fics, In (fidc, fics) (CsvToJson.fidc_to_fics m))) ->
  (forall fidc fics,
     In (fidc, fics) (CsvToJson.fidc_to_fics (CsvToJson.add_row m row)) ->
     fics <> []
     /\ forall fic, In fic fics ->
          exists f,
            In (fic, f) (CsvToJson.fic_to_fidc (CsvToJson.add_row m row)))
  /\ (forall fic fidc,
        In (fic, fidc) (CsvToJson.fic_to_fidc (CsvToJson.add_row m row)) ->
        exists fics,
          In (fidc, fics) (CsvToJson.fidc_to_fics (CsvToJson.add_row m row))).
Proof.
  intros [I1 I2]. unfold CsvToJson.add_row.
  destruct (CsvToJson.normalize_cell (CsvToJson.FIDC row)) as [|a l];
    [now split|].
  destruct (strip (a :: l)) as [|b l']; [now split|].
  set (fidc := upper (b :: l')).
  set (cells := map CsvToJson.normalize_cell (CsvToJson.FICs row)).
  pose proof (collect_fics_keeps_keys cells fidc []
                (CsvToJson.fic_to_fidc m)) as K.
  pose proof (@collect_fics_listed cells fidc [] (CsvToJson.fic_to_fidc m))
    as L.
  pose proof (@collect_fics_values cells fidc [] (CsvToJson.fic_to_fidc m))
    as W.
  destruct (CsvToJson.collect_fics cells fidc [] (CsvToJson.fic_to_fidc m))
    as [fics d'].
  cbn [fst snd] in K, L, W.
  destruct fics as [|x fics];
    cbn [CsvToJson.fidc_to_fics CsvToJson.fic_to_fidc].
  - split.
    + intros fd fs H. destruct (I1 _ _ H) as [N1 N2]. split; [assumption|].
      intros fic Hfic. destruct (N2 _ Hfic) as [f Hf]. exact (K _ _ Hf).
    + intros fic f H. destruct (W _ _ H) as [X|[_ X]]; [eauto|].
      now contradiction X.
  - split.
    + intros fd fs H. apply dict_set_entry in H as [[-> ->]|H].
      * split; [discriminate|]. apply L. intros fic [].
      * destruct (I1 _ _ H) as [N1 N2]. split; [assumption|].
        intros fic Hfic. destruct (N2 _ Hfic) as [f Hf]. exact (K _ _ Hf).
    + intros fic f H. destruct (W _ _ H) as [X|[-> _]].
      * destruct (I2 _ _ X) as [fs Hfs].
        exact (@dict_set_keeps_keys _ (CsvToJson.fidc_to_fics m) fidc f
                 (x :: fics) fs (or_intror Hfs)).
      * apply dict_set_key.
Qed.

(** X20.  The two dictionaries written to the JSON file agree with each
    other, whatever the rows of the CSV file: no FIDC is listed with an
    empty list of FICs, every FIC listed under a FIDC is a key of
    [fic_to_fidc], and every parent recorded in [fic_to_fidc] is a key of
    [fidc_to_fics]. *)
Theorem convert_mapping_consistent (rows : list CsvToJson.csv_row) :
  (forall fidc fics,
     In (fidc, fics) (CsvToJson.fidc_to_fics (CsvToJson.convert rows)) ->
     fics <> []
     /\ forall fic, In fic fics ->
          exists f,
            In (fic, f) (CsvToJson.fic_to_fidc (CsvToJson.convert rows)))
  /\ (forall fic fidc,
        In (fic, fidc) (CsvToJson.fic_to_fidc (CsvToJson.convert rows)) ->
        exists fics,
          In (fidc, fics) (CsvToJson.fidc_to_fics (CsvToJson.convert rows))).
Proof.
  unfold CsvToJson.convert.
  set (m0 := {| CsvToJson.fidc_to_fics := []; CsvToJson.fic_to_fidc := [] |}).
  assert (I0 : (forall fidc fics,
                  In (fidc, fics) (CsvToJson.fidc_to_fics m0) ->
                  fics <> []
                  /\ forall fic, In fic fics ->
                       exists f, In (fic, f) (CsvToJson.fic_to_fidc m0))
               /\ (forall fic fidc,
                     In (fic, fidc) (CsvToJson.fic_to_fidc m0) ->
                     exists fics, In (fidc, fics) (CsvToJson.fidc_to_fics m0))).
  { split; intros ? ? []. }
  revert I0. generalize m0. clear m0.
  induction rows as [|row rows IH]; intros m I0; [exact I0|].
  cbn [fold_left]. apply IH. now apply add_row_consistent.
Qed.

(* ===================================================================== *)
(** * Redistribution: conservation over the whole run                     *)
(* ===================================================================== *)

Lemma fidc_rows_same_labels (fidc_name : pystr) (a b : frame) :
  map idx a = map idx b -> map nome_fundo a = map nome_fundo b ->
  map idx (fidc_rows fidc_name a) = map idx (fidc_rows fidc_name b).
Proof.
  revert b. induction a as [|x a IH]; intros [|y b]; cbn [map];
    try discriminate; [reflexivity|].
  intros [= Ei Et] [= En Ent]. unfold fidc_rows. cbn [filter].
  rewrite En. destruct (fidc_match fidc_name (nome_fundo y)); cbn [map].
  - f_equal; [assumption|]. now apply IH.
  - now apply IH.
Qed.

Lemma selected_by_label (df : frame) (fidc_name : pystr) (pos : nat)
    (r : row) :
  NoDup (map idx df) -> nth_error df pos = Some r ->
  In (idx r) (map idx (fidc_rows fidc_name df)) ->
  fidc_match fidc_name (nome_fundo r) = true.
Proof.
  intros ND E X. apply in_map_iff in X as [r0 [E0 H0]].
  unfold fidc_rows in H0. apply filter_In in H0 as [H0 M0].
  assert (r0 = r) as <-; [|exact M0].
  apply (label_determines_row df); auto. eapply nth_error_In; eauto.
Qed.

Lemma disjoint_head (fidc_name : pystr) (fics_list : list pystr)
    (rest : dict (list pystr)) (names : list pyval) :
  parents_disjoint ((fidc_name, fics_list) :: rest) names = true ->
  parents_disjoint rest names = true
  /\ forall x e, In x names -> fidc_match fidc_name x = true ->
       In e rest -> fidc_match (fst e) x = false.
Proof.
  cbn [parents_disjoint]. intros H. apply andb_prop in H as [H1 H2].
  split; [exact H2|]. intros x e Hx M He.
  rewrite forallb_forall in H1. specialize (H1 x Hx). rewrite M in H1.
  cbn [negb orb] in H1. rewrite forallb_forall in H1. specialize (H1 e He).
  now apply negb_true_iff in H1.
Qed.

Lemma own_name_kept (r : row) :
  own_name (set_nmcategorizado (nome_fundo r) r) = true.
Proof.
  unfold own_name, pyval_eqb. cbn [nmcategorizado nome_fundo set_nmcategorizado].
  now destruct (pyval_eq_dec (nome_fundo r) (nome_fundo r)).
Qed.

Section OverRun.

Context {RS : RandomSource}.

Lemma outcome_of_same_labels (fidc_name : pystr) (fics_list : list pystr)
    (a b : frame) :
  map idx a = map idx b -> map nome_fundo a = map nome_fundo b ->
  outcome_of a fidc_name fics_list = outcome_of b fidc_name fics_list.
Proof.
  intros Ei En. unfold outcome_of.
  now rewrite (@fidc_rows_same_labels fidc_name a b Ei En).
Qed.

Lemma plan_labels_selected (df : frame) (fidc_name : pystr)
    (fics_list : list pystr) (l : Z) :
  In l (stay (outcome_of df fidc_name fics_list)
          ++ handed_labels (outcome_of df fidc_name fics_list)) ->
  In l (map idx (fidc_rows fidc_name df)).
Proof.
  apply Permutation_in. apply Permutation_sym. apply outcome_perm.
Qed.

Lemma handed_label (df : frame) (fidc_name : pystr) (fics_list : list pystr)
    (fic : pystr) (ls : list Z) (l : Z) :
  In (fic, ls) (handed (outcome_of df fidc_name fics_list)) -> In l ls ->
  In l (handed_labels (outcome_of df fidc_name fics_list)).
Proof.
  intros Hpl Hl. unfold handed_labels. apply in_concat. exists ls.
  split; [|exact Hl]. change ls with (snd (fic, ls)). now apply in_map.
Qed.

Lemma process_fidc_columns (df : frame) (g : rng_state)
    (entry : pystr * list pystr) :
  map idx (fst (process_fidc (df, g) entry)) = map idx df
  /\ map nome_fundo (fst (process_fidc (df, g) entry)) = map nome_fundo df.
Proof.
  destruct entry as [fidc_name fics_list].
  rewrite process_fidc_apply_handed. split.
  - apply (@apply_handed_column _ idx
             (fun _ _ => eq_refl) (fun _ _ => eq_refl)).
  - apply (@apply_handed_column _ nome_fundo
             (fun _ _ => eq_refl) (fun _ _ => eq_refl)).
Qed.

(** Entries that do not select a row leave it as it is. *)
Lemma fold_process_fidc_unselected (l : dict (list pystr)) (df : frame)
    (g : rng_state) (pos : nat) (r : row) :
  NoDup (map idx df) ->
  nth_error df pos = Some r ->
  (forall e, In e l -> fidc_match (fst e) (nome_fundo r) = false) ->
  nth_error (fst (fold_left process_fidc l (df, g))) pos = Some r.
Proof.
  revert df g. induction l as [|[fidc_name fics_list] rest IH];
    intros df g ND E Hun; [exact E|].
  cbn [fold_left].
  rewrite (surjective_pairing (process_fidc (df, g) (fidc_name, fics_list))).
  destruct (process_fidc_columns df g (fidc_name, fics_list)) as [Ei _].
  apply IH.
  - now rewrite Ei.
  - destruct (@process_fidc_row RS df g fidc_name fics_list pos r ND E)
      as [E1|[fic [_ [M _]]]]; [exact E1|].
    pose proof (Hun (fidc_name, fics_list) (or_introl eq_refl)) as Z.
    cbn [fst] in Z. congruence.
  - intros e He. apply Hun. now right.
Qed.

(** Through the whole loop, when no fund name is selected by two entries:
    the rows an entry keeps are untouched, the rows it hands over end as it
    left them. *)
Lemma fold_process_fidc_conserves (fidc_to_fics : dict (list pystr)) :
  forall (df : frame) (g : rng_state) (fidc_name : pystr)
         (fics_list : list pystr),
  NoDup (map idx df) ->
  parents_disjoint fidc_to_fics (map nome_fundo df) = true ->
  In (fidc_name, fics_list) fidc_to_fics ->
  (forall pos r,
     nth_error df pos = Some r ->
     In (idx r) (stay (outcome_of df fidc_name fics_list)) ->
     nth_error (fst (fold_left process_fidc fidc_to_fics (df, g))) pos
     = Some r)
  /\ (forall pos r fic ls,
        nth_error df pos = Some r ->
        In (fic, ls) (handed (outcome_of df fidc_name fics_list)) ->
        In (idx r) ls ->
        nth_error (fst (fold_left process_fidc fidc_to_fics (df, g))) pos
        = Some (assigned_row fic r)).
Proof.
  induction fidc_to_fics as [|[q fq] rest IH];
    intros df g fidc_name fics_list ND Hd Hin; [contradiction|].
  apply disjoint_head in Hd as [Hrest Hhead].
  assert (Hname : forall pos r, nth_error df pos = Some r ->
                    In (nome_fundo r) (map nome_fundo df)).
  { intros pos r E. apply in_map. eapply nth_error_In; eauto. }
  assert (Hsel : forall pos r,
            nth_error df pos = Some r ->
            In (idx r) (stay (outcome_of df fidc_name fics_list)
                          ++ handed_labels
                               (outcome_of df fidc_name fics_list)) ->
            fidc_match fidc_name (nome_fundo r) = true).
  { intros pos r E X.
    apply (@selected_by_label df fidc_name pos r ND E).
    now apply plan_labels_selected with (fics_list := fics_list). }
  destruct (process_fidc_columns df g (q, fq)) as [Ei En].
  cbn [fold_left].
  rewrite (surjective_pairing (process_fidc (df, g) (q, fq))).
  assert (ND1 : NoDup (map idx (fst (process_fidc (df, g) (q, fq)))))
    by now rewrite Ei.
  destruct Hin as [Hin|Hin].
  - injection Hin as -> ->.
    pose proof (@process_fidc_conserves RS df g fidc_name fics_list ND) as C.
    unfold conserved in C. cbv zeta in C.
    destruct C as [Pm [_ [_ [Hun Has]]]].
    assert (NDo : NoDup (stay (outcome_of df fidc_name fics_list)
                           ++ handed_labels
                                (outcome_of df fidc_name fics_list))).
    { apply (Permutation_NoDup Pm). now apply fidc_rows_labels_distinct. }
    split.
    + intros pos r E Hst.
      apply fold_process_fidc_unselected; [exact ND1| |].
      * apply Hun; [exact E|].
        intros X. exact (NoDup_app_disjoint _ _ _ NDo Hst X).
      * intros e He. apply (Hhead (nome_fundo r)); [now apply (Hname pos)| |exact He].
        apply (Hsel pos); [exact E|]. apply in_or_app. now left.
    + intros pos r fic ls E Hpl Hl.
      apply fold_process_fidc_unselected; [exact ND1| |].
      * now apply (Has pos r fic ls).
      * intros e He. change (nome_fundo (assigned_row fic r)) with (nome_fundo r).
        apply (Hhead (nome_fundo r)); [now apply (Hname pos)| |exact He].
        apply (Hsel pos); [exact E|]. apply in_or_app. right.
        now apply handed_label with (fic := fic) (ls := ls).
  - assert (Hkeep : forall pos r,
              nth_error df pos = Some r ->
              fidc_match fidc_name (nome_fundo r) = true ->
              nth_error (fst (process_fidc (df, g) (q, fq))) pos = Some r).
    { intros pos r E M.
      destruct (@process_fidc_row RS df g q fq pos r ND E)
        as [E1|[fic [_ [MQ _]]]]; [exact E1|].
      pose proof (Hhead (nome_fundo r) (fidc_name, fics_list)
                    (Hname pos r E) MQ Hin) as Z.
      cbn [fst] in Z. congruence. }
    rewrite <- En in Hrest.
    destruct (IH (fst (process_fidc (df, g) (q, fq)))
                (snd (process_fidc (df, g) (q, fq)))
                fidc_name fics_list ND1 Hrest Hin) as [I1 I2].
    rewrite (@outcome_of_same_labels fidc_name fics_list _ df Ei En) in I1, I2.
    split.
    + intros pos r E Hst. apply I1; [|exact Hst].
      apply Hkeep; [exact E|].
      apply (Hsel pos); [exact E|]. apply in_or_app. now left.
    + intros pos r fic ls E Hpl Hl. apply (I2 pos r fic ls); auto.
      apply Hkeep; [exact E|].
      apply (Hsel pos); [exact E|]. apply in_or_app. right.
      now apply handed_label with (fic := fic) (ls := ls).
Qed.

(** The same for [_categorize_funds], which starts every row with its own
    fund name as categorised name. *)
Lemma categorize_funds_rows_of_parent (g : rng_state)
    (fidc_to_fics : dict (list pystr)) (df df' : frame) (fidc_name : pystr)
    (fics_list : list pystr) :
  NoDup (map idx df) ->
  parents_disjoint fidc_to_fics (map nome_fundo df) = true ->
  fst (_categorize_funds g fidc_to_fics df) = Ok df' ->
  In (fidc_name, fics_list) fidc_to_fics ->
  (forall pos r,
     nth_error df pos = Some r ->
     In (idx r) (stay (outcome_of df fidc_name fics_list)) ->
     nth_error df' pos = Some (set_nmcategorizado (nome_fundo r) r))
  /\ (forall pos r fic ls,
        nth_error df pos = Some r ->
        In (fic, ls) (handed (outcome_of df fidc_name fics_list)) ->
        In (idx r) ls ->
        nth_error df' pos = Some (assigned_row fic r)).
Proof.
  intros ND Hd H Hin. unfold _categorize_funds in H.
  destruct (forallb is_str (firstn 5 (unique (map nome_fundo df))));
    [|discriminate].
  rewrite fst_ok_pair in H. injection H as <-.
  set (df0 := map (fun r => set_nmcategorizado (nome_fundo r) r) df).
  assert (Ei : map idx df0 = map idx df)
    by (unfold df0; now rewrite map_map).
  assert (En : map nome_fundo df0 = map nome_fundo df)
    by (unfold df0; now rewrite map_map).
  assert (E0 : forall pos r,
            nth_error df pos = Some r ->
            nth_error df0 pos = Some (set_nmcategorizado (nome_fundo r) r)).
  { intros pos r E. unfold df0. now rewrite nth_error_map, E. }
  assert (ND0 : NoDup (map idx df0)) by now rewrite Ei.
  rewrite <- En in Hd.
  destruct (@fold_process_fidc_conserves fidc_to_fics df0 g fidc_name
              fics_list ND0 Hd Hin) as [I1 I2].
  rewrite (@outcome_of_same_labels fidc_name fics_list df0 df Ei En)
    in I1, I2.
  split.
  - intros pos r E Hst. apply I1; [now apply E0|exact Hst].
  - intros pos r fic ls E Hpl Hl.
    rewrite <- (assigned_row_own fic (nome_fundo r) r).
    apply (I2 pos _ fic ls); [now apply E0|exact Hpl|exact Hl].
Qed.

End OverRun.

(** C2 (as stated).  Counted on the frame [_categorize_funds] returns, the
    rows retained under a parent and the rows assigned to its children do
    not always add up to the N rows the parent selects, even on a frame with
    distinct index labels.  Two rows named "ALFA FIDC" under the entries
    "ALFA FIDC" and "ALFA": the first entry keeps row 1 and hands row 0 to
    "ALFA FIC"; the second entry selects the same two rows again and hands
    row 0 to "ALFA II FIC".  Of the N = 2 rows of "ALFA FIDC" one is
    retained and none is with its child. *)
Lemma overlapping_parents_counterexample :
  ~ (forall (fidc_to_fics : dict (list pystr)) (df df' : frame)
            (fidc_name : pystr) (fics_list : list pystr),
       NoDup (map idx df) ->
       fst (_categorize_funds (seed 0) fidc_to_fics df) = Ok df' ->
       In (fidc_name, fics_list) fidc_to_fics ->
       fics_list <> [] ->
       fidc_rows fidc_name df <> [] ->
       List.length (retained_rows fidc_name df')
       + List.length (assigned_rows fidc_name fics_list df')
       = List.length (fidc_rows fidc_name df)).
Proof.
  intros H.
  assert (ND : NoDup (map idx overlap_rows)) by nodup_labels.
  assert (E : fst (_categorize_funds (seed 0) overlap_mapping overlap_rows)
              = Ok overlap_rows_after) by (vm_compute; reflexivity).
  assert (Hin : In (u "ALFA FIDC", [u "ALFA FIC"]) overlap_mapping)
    by (left; reflexivity).
  assert (K : [u "ALFA FIC"] <> []) by discriminate.
  assert (N : fidc_rows (u "ALFA FIDC") overlap_rows <> [])
    by (vm_compute; discriminate).
  specialize (H overlap_mapping overlap_rows overlap_rows_after
                (u "ALFA FIDC") [u "ALFA FIC"] ND E Hin K N).
  vm_compute in H. discriminate H.
Qed.

(** C2 (amended).  On a frame with distinct index labels, and when no fund
    name of the frame is selected by two entries of the mapping, the frame
    the whole of [_categorize_funds] returns conserves the rows of every
    entry: the N rows the entry selects are divided, without repetition,
    into rows that stay and rows handed to its FICs, the two counts add up
    to N, the frame keeps its length, a row that stays carries its own fund
    name as categorised name, and a row handed over carries the name and
    type of the one FIC it was handed to. *)
Theorem categorize_funds_conserves_rows (RS : RandomSource) (g : rng_state)
    (fidc_to_fics : dict (list pystr)) (df df' : frame) (fidc_name : pystr)
    (fics_list : list pystr) :
  NoDup (map idx df) ->
  parents_disjoint fidc_to_fics (map nome_fundo df) = true ->
  fst (_categorize_funds g fidc_to_fics df) = Ok df' ->
  In (fidc_name, fics_list) fidc_to_fics ->
  conserved_over_run df fidc_name fics_list df'.
Proof.
  intros ND Hd H Hin. unfold conserved_over_run. cbv zeta.
  pose proof (outcome_perm df fidc_name fics_list) as Pm.
  split; [exact Pm|]. split.
  { apply (Permutation_NoDup Pm). now apply fidc_rows_labels_distinct. }
  split.
  { rewrite handed_count_length, <- length_app, <- (Permutation_length Pm).
    apply length_map. }
  split.
  { pose proof (@categorize_funds_column RS _ idx
                  (fun _ _ => eq_refl) (fun _ _ => eq_refl) g _ _ _ H) as Ei.
    apply (f_equal (@List.length Z)) in Ei. now rewrite !length_map in Ei. }
  exact (@categorize_funds_rows_of_parent RS g fidc_to_fics df df' fidc_name
           fics_list ND Hd H Hin).
Qed.

(** The five rows of "BETA FIDC" under a mapping with a second entry,
    "OMEGA", that selects another row: rows 10, 11 and 14 stay, row 13 is
    with "BETA FIC FIM" and row 15 with "GAMA FIC". *)
Lemma categorize_funds_conserves_rows_witness :
  NoDup (map idx beta_rows)
  /\ parents_disjoint beta_mapping (map nome_fundo beta_rows) = true
  /\ fst (_categorize_funds (seed 0) beta_mapping beta_rows)
     = Ok beta_rows_after
  /\ In (u "BETA FIDC", beta_fics) beta_mapping
  /\ conserved_over_run beta_rows (u "BETA FIDC") beta_fics beta_rows_after.
Proof.
  assert (H1 : NoDup (map idx beta_rows)) by nodup_labels.
  assert (H2 : parents_disjoint beta_mapping (map nome_fundo beta_rows) = true)
    by (vm_compute; reflexivity).
  assert (H3 : fst (_categorize_funds (seed 0) beta_mapping beta_rows)
               = Ok beta_rows_after) by (vm_compute; reflexivity).
  assert (H4 : In (u "BETA FIDC", beta_fics) beta_mapping)
    by (left; reflexivity).
  do 4 (split; [assumption|]).
  exact (@categorize_funds_conserves_rows mersenne (seed 0) beta_mapping
           beta_rows beta_rows_after (u "BETA FIDC") beta_fics H1 H2 H3 H4).
Defined.

(** X24.  What the code does guarantee to the parent.  On a frame with
    distinct index labels, and when no fund name of the frame is selected by
    two entries of the mapping, at least [min(max(N // 2, 1), N)] of the N
    rows an entry selects still carry their own fund name in the frame
    [_categorize_funds] returns: at least [floor(N / 2)], and at least one
    when there is one. *)
Theorem retention_floor_over_run (RS : RandomSource) (g : rng_state)
    (fidc_to_fics : dict (list pystr)) (df df' : frame) (fidc_name : pystr)
    (fics_list : list pystr) :
  NoDup (map idx df) ->
  parents_disjoint fidc_to_fics (map nome_fundo df) = true ->
  fst (_categorize_funds g fidc_to_fics df) = Ok df' ->
  In (fidc_name, fics_list) fidc_to_fics ->
  Nat.min (Nat.max (List.length (fidc_rows fidc_name df) / 2) 1)
          (List.length (fidc_rows fidc_name df))
  <= List.length (retained_rows fidc_name df').
Proof.
  intros ND Hd H Hin.
  apply Nat.le_trans with (1 := retention_floor df fidc_name fics_list).
  destruct (@categorize_funds_rows_of_parent RS g fidc_to_fics df df'
              fidc_name fics_list ND Hd H Hin) as [I1 _].
  pose proof (outcome_perm df fidc_name fics_list) as Pm.
  assert (NDs : NoDup (stay (outcome_of df fidc_name fics_list))).
  { apply NoDup_app_remove_r with
      (l' := handed_labels (outcome_of df fidc_name fics_list)).
    apply (Permutation_NoDup Pm). now apply fidc_rows_labels_distinct. }
  rewrite <- (length_map idx (retained_rows fidc_name df')).
  apply NoDup_incl_length; [exact NDs|].
  intros l Hl.
  assert (X : In l (map idx (fidc_rows fidc_name df))).
  { apply plan_labels_selected with (fics_list := fics_list).
    apply in_or_app. now left. }
  apply in_map_iff in X as [r [El Hr]]. subst l.
  unfold fidc_rows in Hr. apply filter_In in Hr as [Hr M].
  apply In_nth_error in Hr as [pos E].
  apply in_map_iff. exists (set_nmcategorizado (nome_fundo r) r).
  split; [reflexivity|].
  unfold retained_rows. apply filter_In. split.
  - eapply nth_error_In. exact (I1 pos r E Hl).
  - rewrite own_name_kept.
    change (nome_fundo (set_nmcategorizado (nome_fundo r) r))
      with (nome_fundo r).
    now rewrite M.
Qed.

(** Of the five rows of "BETA FIDC" at least two keep their own name; three
    do. *)
Lemma retention_floor_over_run_witness :
  NoDup (map idx beta_rows)
  /\ parents_disjoint beta_mapping (map nome_fundo beta_rows) = true
  /\ fst (_categorize_funds (seed 0) beta_mapping beta_rows)
     = Ok beta_rows_after
  /\ In (u "BETA FIDC", beta_fics) beta_mapping
  /\ Nat.min (Nat.max (List.length (fidc_rows (u "BETA FIDC") beta_rows) / 2) 1)
             (List.length (fidc_rows (u "BETA FIDC") beta_rows))
     <= List.length (retained_rows (u "BETA FIDC") beta_rows_after).
Proof.
  assert (H1 : NoDup (map idx beta_rows)) by nodup_labels.
  assert (H2 : parents_disjoint beta_mapping (map nome_fundo beta_rows) = true)
    by (vm_compute; reflexivity).
  assert (H3 : fst (_categorize_funds (seed 0) beta_mapping beta_rows)
               = Ok beta_rows_after) by (vm_compute; reflexivity).
  assert (H4 : In (u "BETA FIDC", beta_fics) beta_mapping)
    by (left; reflexivity).
  do 4 (split; [assumption|]).
  exact (@retention_floor_over_run mersenne (seed 0) beta_mapping
           beta_rows beta_rows_after (u "BETA FIDC") beta_fics H1 H2 H3 H4).
Defined.
